(** * The Stork signed-price puller (package [oracle], file feed_stork.go)

    A shallow embedding of the Stork price feed: construction of the feed
    from its configuration, the pull of one asset pair over a websocket
    session, and the conversion of the provider's signed prices into the
    chain's [AssetPair].

    Go values are modelled as follows.  A [string] and a [[]byte] holding
    text are Rocq strings (sequences of 8-bit characters); raw signature
    bytes are [list byte]; [int64], [uint64] and [time.Duration] are [Z];
    a nil-able [error] is [option error]; a slice is a list; the map of
    the response envelope is a [gmap] keyed by strings. *)

From Stdlib Require Import ZArith NArith Ascii String List Bool Lia.
From Stdlib.Strings Require Import Byte.
From Stdlib.Floats Require Import SpecFloat.
From stdpp Require Import gmap strings list fin_maps.

Local Open Scope string_scope.
Local Open Scope Z_scope.

(* ================================================================== *)
(** * Definitions *)
(* ================================================================== *)

(** ** Errors *)

(** The error values that can reach this file: [errors.New] and
    [fmt.Errorf] build an [errorString], [errors.Wrap]/[errors.Wrapf]
    of github.com/pkg/errors a [withMessage], encoding/hex has its two
    errors and package context its two sentinels. *)
Inductive error : Type :=
| errorString (msg : string)
| withMessage (cause : error) (msg : string)
| hex_InvalidByteError (b : ascii)
| hex_ErrLength
| context_Canceled
| context_DeadlineExceeded.

(** [errors.Wrapf(err, format, args...)]: nil when [err] is nil,
    otherwise [err] annotated with the formatted message. *)
Definition errors_Wrapf (err : option error) (msg : string) : option error :=
  match err with
  | None => None
  | Some e => Some (withMessage e msg)
  end.

(** [fmt.Errorf] with an already formatted message. *)
Definition fmt_Errorf (msg : string) : option error := Some (errorString msg).

(** ** Package strings *)

(** [strings.HasPrefix(s, prefix)]. *)
Definition strings_HasPrefix (s prefix : string) : bool := String.prefix prefix s.

(** [strings.TrimPrefix(s, prefix)]: [s] without the leading [prefix],
    or [s] itself when it does not start with [prefix]. *)
Definition strings_TrimPrefix (s prefix : string) : string :=
  if strings_HasPrefix s prefix
  then String.substring (String.length prefix)
                        (String.length s - String.length prefix) s
  else s.

(** ** Package encoding/hex and go-ethereum's common.Hex2Bytes *)

(** [reverseHexTable]: the value of a hexadecimal digit, [None] where
    the table holds 0xff. *)
Definition fromHexChar (c : ascii) : option N :=
  let n := N_of_ascii c in
  if ((48 <=? n) && (n <=? 57))%N then Some (n - 48)%N
  else if ((97 <=? n) && (n <=? 102))%N then Some (n - 87)%N
  else if ((65 <=? n) && (n <=? 70))%N then Some (n - 55)%N
  else None.

(** [(a << 4) | b] as a byte. *)
Definition hex_byte (a b : N) : byte :=
  byte_of_ascii (ascii_of_N (N.lor (N.shiftl a 4) b)).

(** [hex.Decode(dst, src)]: the loop reads [src] two characters at a
    time and stops at the first character that is no digit; a trailing
    single character is an invalid byte if it is no digit and a length
    error otherwise.  The result is [dst[:n]] with the error. *)
Fixpoint hex_Decode (src : string) : list byte * option error :=
  match src with
  | EmptyString => ([], None)
  | String p EmptyString =>
      match fromHexChar p with
      | None => ([], Some (hex_InvalidByteError p))
      | Some _ => ([], Some hex_ErrLength)
      end
  | String p (String q rest) =>
      match fromHexChar p with
      | None => ([], Some (hex_InvalidByteError p))
      | Some a =>
          match fromHexChar q with
          | None => ([], Some (hex_InvalidByteError q))
          | Some b =>
              let '(bs, err) := hex_Decode rest in
              (hex_byte a b :: bs, err)
          end
      end
  end.

(** [hex.DecodeString(s)]. *)
Definition hex_DecodeString (s : string) : list byte * option error :=
  hex_Decode s.

(** [common.Hex2Bytes(str)]: [h, _ := hex.DecodeString(str); return h]. *)
Definition common_Hex2Bytes (str : string) : list byte :=
  fst (hex_DecodeString str).

(** ** The provider's data shapes (lines 247-280) *)

(** [math.LegacyDec]: a fixed-point decimal, kept as its integer of
    10^-18 units. *)
Record LegacyDec : Type := mkLegacyDec { dec_i : Z }.

Record Signature : Type := mkSignature {
  sig_R : string;
  sig_S : string;
  sig_V : string
}.

Record TimestampedSignature : Type := mkTimestampedSignature {
  ts_Signature : Signature;
  ts_Timestamp : Z;
  MsgHash : string
}.

Record SignedPrice : Type := mkSignedPrice {
  PublisherKey : string;
  ExternalAssetID : string;
  sp_SignatureType : string;
  sp_Price : LegacyDec;
  TimestampedSignature_ : TimestampedSignature
}.

Record Data : Type := mkData {
  Timestamp : Z;
  AssetID : string;
  SignatureType : string;
  Trigger : string;
  Price : string;
  SignedPrices : list SignedPrice
}.

Record messageResponse : Type := mkMessageResponse {
  Type_ : string;
  TraceID : string;
  Data_ : gmap string Data
}.

(** The zero value of [Data], what a map lookup of an absent key gives. *)
Definition Data_zero : Data := mkData 0 "" "" "" "" [].

(** ** The chain's types (package oracletypes) *)

Record SignedPriceOfAssetPair : Type := mkSignedPriceOfAssetPair {
  soap_PublisherKey : string;
  soap_Timestamp : Z;
  soap_Price : LegacyDec;
  soap_Signature : list byte
}.

(** [SignedPrices] is a slice of pointers in Go; every pointer this
    file stores is to a variable declared inside one loop iteration, so
    no two entries alias and the slice is kept as the list of the values
    pointed to. *)
Record AssetPair : Type := mkAssetPair {
  AssetId : string;
  ap_SignedPrices : list SignedPriceOfAssetPair
}.

(** [oracletypes.AssetPair{}]. *)
Definition AssetPair_zero : AssetPair := mkAssetPair "" [].

(** ** Conversion (lines 211-245) *)

(** [CombineSignatureToString]. *)
Definition CombineSignatureToString (signature : Signature) : string :=
  let prunedR := strings_TrimPrefix (sig_R signature) "0x" in
  let prunedS := strings_TrimPrefix (sig_S signature) "0x" in
  let prunedV := strings_TrimPrefix (sig_V signature) "0x" in
  prunedR +:+ prunedS +:+ prunedV.

(** [ConvertSignedPrice]. *)
Definition ConvertSignedPrice (signeds : SignedPrice) : SignedPriceOfAssetPair :=
  let signature := CombineSignatureToString (ts_Signature (TimestampedSignature_ signeds)) in
  {| soap_Signature := common_Hex2Bytes signature;
     soap_PublisherKey := PublisherKey signeds;
     soap_Timestamp := ts_Timestamp (TimestampedSignature_ signeds);
     soap_Price := sp_Price signeds |}.

(** The zero value of [SignedPrice]. *)
Definition SignedPrice_zero : SignedPrice :=
  mkSignedPrice "" "" "" (mkLegacyDec 0)
    (mkTimestampedSignature (mkSignature "" "" "") 0 "").

(** The loop of [ConvertDataToAssetPair]: [i] runs over the indices of
    [data.SignedPrices] (here the list [idx]), and each turn appends the
    conversion of [data.SignedPrices[i]]. *)
Fixpoint convert_loop (prices : list SignedPrice) (idx : list nat)
    (signedPricesOfAssetPair : list SignedPriceOfAssetPair) : list SignedPriceOfAssetPair :=
  match idx with
  | [] => signedPricesOfAssetPair
  | i :: idx' =>
      let newSignedPriceAssetPair := ConvertSignedPrice (nth i prices SignedPrice_zero) in
      convert_loop prices idx' (signedPricesOfAssetPair ++ [newSignedPriceAssetPair])
  end.

(** [ConvertDataToAssetPair]. *)
Definition ConvertDataToAssetPair (data : Data) (assetId : string) : AssetPair :=
  let signedPricesOfAssetPair :=
    convert_loop (SignedPrices data) (seq 0 (length (SignedPrices data))) [] in
  {| ap_SignedPrices := signedPricesOfAssetPair; AssetId := assetId |}.

(** ** Package time: durations and [time.ParseDuration] *)

(** [time.Duration] is an [int64] count of nanoseconds. *)
Definition time_Nanosecond : Z := 1.
Definition time_Microsecond : Z := 1000 * time_Nanosecond.
Definition time_Millisecond : Z := 1000 * time_Microsecond.
Definition time_Second : Z := 1000 * time_Millisecond.
Definition time_Minute : Z := 60 * time_Second.
Definition time_Hour : Z := 60 * time_Minute.

(** [uint64] arithmetic wraps around at 2^64. *)
Definition wrap64 (x : Z) : Z := x mod 2 ^ 64.

(** [float64] values follow IEEE 754 binary64, through the Standard
    Library's executable specification of it. *)
Definition float64 : Type := spec_float.
Definition float64_of_uint64 (x : Z) : float64 := binary_normalize 53 1024 x 0 false.
Definition float64_mul : float64 -> float64 -> float64 := SFmul 53 1024.
Definition float64_div : float64 -> float64 -> float64 := SFdiv 53 1024.

(** [uint64(x)] for a float: truncation toward zero (the values that
    reach it are finite and not negative). *)
Definition uint64_of_float64 (x : float64) : Z :=
  match x with
  | S754_finite false m e => wrap64 (Z.shiftl (Z.pos m) e)
  | _ => 0
  end.

Definition is_digit (c : ascii) : bool :=
  let n := N_of_ascii c in ((48 <=? n) && (n <=? 57))%N.

Definition is_dot (c : ascii) : bool := (N_of_ascii c =? 46)%N.

Definition digit_value (c : ascii) : Z := Z.of_N (N_of_ascii c) - 48.

(** The two spellings of the micro sign that [unitMap] accepts, U+00B5
    and U+03BC in UTF-8, followed by [s]. *)
Definition micro_us : string :=
  String (ascii_of_nat 194) (String (ascii_of_nat 181) "s").
Definition mu_us : string :=
  String (ascii_of_nat 206) (String (ascii_of_nat 188) "s").

(** [unitMap]. *)
Definition unitMap : gmap string Z :=
  list_to_map
    [ ("ns", time_Nanosecond); ("us", time_Microsecond);
      (micro_us, time_Microsecond); (mu_us, time_Microsecond);
      ("ms", time_Millisecond); ("s", time_Second);
      ("m", time_Minute); ("h", time_Hour) ].

(** [leadingInt(s)]: the leading digits of [s] as a number, and the
    rest; [None] is [errLeadingInt] (the number passes 2^63). *)
Fixpoint leadingInt_from (x : Z) (s : string) : option (Z * string) :=
  match s with
  | EmptyString => Some (x, s)
  | String c s' =>
      if negb (is_digit c) then Some (x, s)
      else if 2 ^ 63 / 10 <? x then None
      else
        let x := wrap64 (x * 10 + digit_value c) in
        if 2 ^ 63 <? x then None else leadingInt_from x s'
  end.

Definition leadingInt (s : string) : option (Z * string) := leadingInt_from 0 s.

(** [leadingFraction(s)]: the leading digits of [s] as the numerator
    [x] of a fraction [x/scale]; digits past the capacity of [x] are
    skipped. *)
Fixpoint leadingFraction_from (x : Z) (scale : float64) (overflow : bool)
    (s : string) : Z * float64 * string :=
  match s with
  | EmptyString => (x, scale, s)
  | String c s' =>
      if negb (is_digit c) then (x, scale, s)
      else if overflow then leadingFraction_from x scale overflow s'
      else if (2 ^ 63 - 1) / 10 <? x then leadingFraction_from x scale true s'
      else
        let y := wrap64 (x * 10 + digit_value c) in
        if 2 ^ 63 <? y then leadingFraction_from x scale true s'
        else leadingFraction_from y (float64_mul scale (float64_of_uint64 10)) overflow s'
  end.

Definition leadingFraction (s : string) : Z * float64 * string :=
  leadingFraction_from 0 (float64_of_uint64 1) false s.

(** The unit of a group: the characters up to the next digit or dot. *)
Fixpoint unit_span (s : string) : string * string :=
  match s with
  | EmptyString => ("", "")
  | String c s' =>
      if is_dot c || is_digit c then ("", s)
      else let '(u, rest) := unit_span s' in (String c u, rest)
  end.

(** The errors of [ParseDuration]; the quoted input that the library
    appends to each message is left out. *)
Definition err_invalid_duration : error := errorString "time: invalid duration".
Definition err_missing_unit : error := errorString "time: missing unit in duration".
Definition err_unknown_unit : error := errorString "time: unknown unit in duration".

(** The optional fraction of a group, a dot and digits: the numerator
    [f] and [scale] of the fraction, the rest of the string, and [post],
    whether a digit followed the dot. *)
Definition optional_fraction (s : string) : Z * float64 * string * bool :=
  match s with
  | String c s1 =>
      if is_dot c then
        let pl := String.length s1 in
        let '(f, scale, s2) := leadingFraction s1 in
        (f, scale, s2, negb (pl =? String.length s2)%nat)
      else (0, float64_of_uint64 1, s, false)
  | EmptyString => (0, float64_of_uint64 1, s, false)
  end.

(** One turn of the loop of [ParseDuration]: a group of digits, an
    optional dot with more digits, and a unit, read off the front of
    [s]; the result is its value in nanoseconds and the rest of [s]. *)
Definition parse_group (s : string) : (Z * string) + error :=
  match s with
  | EmptyString => inr err_invalid_duration
  | String c0 _ =>
      if negb (is_dot c0 || is_digit c0) then inr err_invalid_duration
      else
        let pl := String.length s in
        match leadingInt s with
        | None => inr err_invalid_duration
        | Some (v, s) =>
            let pre := negb (pl =? String.length s)%nat in
            let '(f, scale, s, post) := optional_fraction s in
            if negb pre && negb post then inr err_invalid_duration
            else
              let '(u, s) := unit_span s in
              if (String.length u =? 0)%nat then inr err_missing_unit
              else
                match unitMap !! u with
                | None => inr err_unknown_unit
                | Some unit =>
                    if 2 ^ 63 / unit <? v then inr err_invalid_duration
                    else
                      let v := wrap64 (v * unit) in
                      if 0 <? f then
                        let v :=
                          wrap64 (v + uint64_of_float64
                                        (float64_mul (float64_of_uint64 f)
                                           (float64_div (float64_of_uint64 unit) scale))) in
                        if 2 ^ 63 <? v then inr err_invalid_duration else inl (v, s)
                      else inl (v, s)
                end
        end
  end.

(** The loop [for s != ""] of [ParseDuration], summing the groups into
    [d].  Every group consumes at least its unit, so [fuel] equal to the
    length of [s] is never used up (lemma [parse_groups_fuel]). *)
Fixpoint parse_groups (fuel : nat) (d : Z) (s : string) : Z + error :=
  match s with
  | EmptyString => inl d
  | String _ _ =>
      match fuel with
      | O => inr err_invalid_duration
      | Datatypes.S fuel =>
          match parse_group s with
          | inr e => inr e
          | inl (v, s) =>
              let d := wrap64 (d + v) in
              if 2 ^ 63 <? d then inr err_invalid_duration
              else parse_groups fuel d s
          end
      end
  end.

(** [time.ParseDuration(s)]: the duration and a nil error, or zero and
    the error. *)
Definition time_ParseDuration (s : string) : Z * option error :=
  let '(neg, s) :=
    match s with
    | String c s' =>
        if (N_of_ascii c =? 45)%N then (true, s')
        else if (N_of_ascii c =? 43)%N then (false, s')
        else (false, s)
    | EmptyString => (false, s)
    end in
  if String.eqb s "0" then (0, None)
  else if String.eqb s "" then (0, Some err_invalid_duration)
  else
    match parse_groups (String.length s) 0 s with
    | inr e => (0, Some e)
    | inl d =>
        if neg then (- d, None)
        else if 2 ^ 63 - 1 <? d then (0, Some err_invalid_duration)
        else (d, None)
    end.

(** ** Package oracletypes: the oracle classification *)

(** [oracletypes.OracleType] is an [int32] enumeration generated from
    the chain's protobuf definitions. *)
Abbreviation oracletypes_OracleType := Z (only parsing).

Definition OracleType_Unspecified : oracletypes_OracleType := 0.
Definition OracleType_Band : oracletypes_OracleType := 1.
Definition OracleType_PriceFeed : oracletypes_OracleType := 2.
Definition OracleType_Coinbase : oracletypes_OracleType := 3.
Definition OracleType_Chainlink : oracletypes_OracleType := 4.
Definition OracleType_Razor : oracletypes_OracleType := 5.
Definition OracleType_Dia : oracletypes_OracleType := 6.
Definition OracleType_API3 : oracletypes_OracleType := 7.
Definition OracleType_Uma : oracletypes_OracleType := 8.
Definition OracleType_Pyth : oracletypes_OracleType := 9.
Definition OracleType_BandIBC : oracletypes_OracleType := 10.
Definition OracleType_Provider : oracletypes_OracleType := 11.
Definition OracleType_Stork : oracletypes_OracleType := 12.

(** [oracletypes.OracleType_value]: the generated table from enum names
    to their numbers. *)
Definition OracleType_value : gmap string Z :=
  list_to_map
    [ ("Unspecified", 0); ("Band", 1); ("PriceFeed", 2); ("Coinbase", 3);
      ("Chainlink", 4); ("Razor", 5); ("Dia", 6); ("API3", 7); ("Uma", 8);
      ("Pyth", 9); ("BandIBC", 10); ("Provider", 11); ("Stork", 12) ].

(** ** Feed configuration and construction (lines 26-134) *)

Record StorkFeedConfig : Type := mkStorkFeedConfig {
  ProviderName : string;
  Ticker : string;
  PullInterval : string;
  Url : string;
  Header : string;
  Message : string;
  OracleType : string
}.

Record storkPriceFeed : Type := mkStorkPriceFeed {
  ticker : string;
  providerName : string;
  interval : Z;
  url : string;
  header : string;
  message : string;
  logger : list (string * string);
  svcTags : list (string * string);
  oracleType : oracletypes_OracleType
}.

(** [NewStorkPriceFeed]: the [PricePuller] (nil is [None]) and the
    error.  The two checks are written as values of a sum: [inr] carries
    the results of an early [return], [inl] what the code goes on
    with. *)
Definition NewStorkPriceFeed (cfg : StorkFeedConfig)
    : option storkPriceFeed * option error :=
  let pullInterval := 1 * time_Minute in
  let checked : Z + (option storkPriceFeed * option error) :=
    if (0 <? String.length (PullInterval cfg))%nat then
      let '(interval, err) := time_ParseDuration (PullInterval cfg) in
      match err with
      | Some _ =>
          let err := errors_Wrapf err
            ("failed to parse pull interval: " +:+ PullInterval cfg +:+ " (expected format: 60s)") in
          inr (None, err)
      | None =>
          if interval <? 1 * time_Second then
            let err := errors_Wrapf err
              ("failed to parse pull interval: " +:+ PullInterval cfg +:+ " (minimum interval = 1s)") in
            inr (None, err)
          else inl interval
      end
    else inl pullInterval in
  match checked with
  | inr failed => failed
  | inl pullInterval =>
      let resolved : oracletypes_OracleType + (option storkPriceFeed * option error) :=
        if String.eqb (OracleType cfg) "" then inl OracleType_PriceFeed
        else
          match OracleType_value !! OracleType cfg with
          | None => inr (None, fmt_Errorf ("oracle type does not exist: " +:+ OracleType cfg))
          | Some tmpType => inl tmpType
          end in
      match resolved with
      | inr failed => failed
      | inl oracleType =>
          let feed :=
            {| ticker := Ticker cfg;
               providerName := ProviderName cfg;
               interval := pullInterval;
               url := Url cfg;
               header := Header cfg;
               message := Message cfg;
               oracleType := oracleType;
               logger := [("svc", "oracle"); ("dynamic", "true"); ("provider", ProviderName cfg)];
               svcTags := [("provider", ProviderName cfg)] |} in
          (Some feed, None)
      end
  end.

(** The accessors of the feed. *)
Definition storkPriceFeed_Interval (f : storkPriceFeed) : Z := interval f.
Definition storkPriceFeed_Symbol (f : storkPriceFeed) : string := ticker f.
Definition storkPriceFeed_ProviderName (f : storkPriceFeed) : string := providerName f.
Definition storkPriceFeed_OracleType (f : storkPriceFeed) : oracletypes_OracleType :=
  OracleType_Stork.

(** ** The world a pull runs in *)

(** [context.Context] as far as a pull could observe it: whether the
    caller's cancellation signal fires, and before which blocking step
    of the session (0 the dial, 1 the write, 2 the first read, 3 the
    second read). *)
Record Context : Type := mkContext { cancelled_before : option nat }.

Definition context_Background : Context := mkContext None.

(** [ctx.Err()]. *)
Definition Context_Err (ctx : Context) : option error :=
  match cancelled_before ctx with
  | Some _ => Some context_Canceled
  | None => None
  end.

(** [*http.Response], the part the pull reads. *)
Record Response : Type := mkResponse {
  Status : string;
  StatusCode : Z;
  resp_Header : list (string * list string)
}.

(** [*url.URL], the part the pull reads. *)
Record URL : Type := mkURL { URL_String : string }.

(** What [dialer.Dial] gives: a connection with the handshake response,
    or an error with the response when the handshake was answered. *)
Inductive DialResult : Type :=
| DialOk (resp : Response)
| DialErr (resp : option Response) (err : error).

(** What one [conn.ReadMessage] gives: a frame, an error, or nothing
    (the call never returns: the pull sets no deadline). *)
Inductive ReadResult : Type :=
| Frame (message : string)
| ReadErr (err : error)
| NoFrame.

(** [base64.StdEncoding.EncodeToString]: three bytes become four
    characters of the standard alphabet, with = padding at the end. *)
Definition base64_encodeStd : string :=
  "ABCDEFGHIJKLMNOPQRSTUVWXYZabcdefghijklmnopqrstuvwxyz0123456789+/".

Definition base64_char (n : N) : ascii :=
  match String.get (N.to_nat (N.land n 63)) base64_encodeStd with
  | Some c => c
  | None => "="%char
  end.

Fixpoint base64_EncodeToString (src : string) : string :=
  match src with
  | EmptyString => ""
  | String a EmptyString =>
      let val := N.shiftl (N_of_ascii a) 16 in
      String (base64_char (N.shiftr val 18))
        (String (base64_char (N.shiftr val 12)) "==")
  | String a (String b EmptyString) =>
      let val := N.lor (N.shiftl (N_of_ascii a) 16) (N.shiftl (N_of_ascii b) 8) in
      String (base64_char (N.shiftr val 18))
        (String (base64_char (N.shiftr val 12))
           (String (base64_char (N.shiftr val 6)) "="))
  | String a (String b (String c rest)) =>
      let val := N.lor (N.lor (N.shiftl (N_of_ascii a) 16) (N.shiftl (N_of_ascii b) 8))
                       (N_of_ascii c) in
      String (base64_char (N.shiftr val 18))
        (String (base64_char (N.shiftr val 12))
           (String (base64_char (N.shiftr val 6))
              (String (base64_char val) (base64_EncodeToString rest))))
  end.

(** The environment of a pull: the library functions this model takes
    as given ([url.Parse], and [json.Unmarshal] into a
    [messageResponse]), the remote endpoint's behaviour (the dial, the
    write, the [n]-th read of the session) and the order in which the
    runtime ranges over a map. *)
Record Env : Type := mkEnv {
  url_Parse : string -> URL + error;
  Dial : string -> list (string * string) -> DialResult;
  WriteMessage : string -> option error;
  ReadMessage : nat -> ReadResult;
  json_Unmarshal : string -> messageResponse + error;
  range_keys : gmap string Data -> list string
}.

(** A [range] over a map visits every key once, in an order the
    language leaves open. *)
Definition range_valid (w : Env) : Prop :=
  forall m : gmap string Data, range_keys w m ≡ₚ (map_to_list m).*1.

(** The effects of a pull that can be seen from outside; a log line is
    recorded by its format or first operand. *)
Inductive Event : Type :=
| EvReportFuncCall (tags : list (string * string))
| EvReportFuncTiming (tags : list (string * string))
| EvTimingDone
| EvLog (line : string)
| EvLogFatal (line : string)
| EvDial (rawurl : string) (requestHeader : list (string * string)) (enableCompression : bool)
| EvWriteMessage (data : string)
| EvReadMessage
| EvClose.

(** ** Function bodies with effects *)

(** How a statement ends: control goes on to the next statement, a
    [return] ran, the process exited ([os.Exit], behind [log.Fatal]),
    a run-time panic unwinds the function, or a call never came back. *)
Inductive Flow (R A : Type) : Type :=
| FNext (a : A)
| FReturn (r : R)
| FExit (code : Z)
| FPanic (msg : string)
| FBlock.

Arguments FNext {R A} a.
Arguments FReturn {R A} r.
Arguments FExit {R A} code.
Arguments FPanic {R A} msg.
Arguments FBlock {R A}.

(** The state threaded through a body: the events so far (latest
    first) and the number of frames read from the connection. *)
Record St : Type := mkSt { events : list Event; frames_read : nat }.

Definition M (R A : Type) : Type := St -> Flow R A * St.

Definition next {R A} (a : A) : M R A := fun st => (FNext a, st).

Definition bind {R A B} (m : M R A) (k : A -> M R B) : M R B :=
  fun st =>
    match m st with
    | (FNext a, st') => k a st'
    | (FReturn r, st') => (FReturn r, st')
    | (FExit c, st') => (FExit c, st')
    | (FPanic msg, st') => (FPanic msg, st')
    | (FBlock, st') => (FBlock, st')
    end.

Notation "x <- m ;; k" := (bind m (fun x => k))
  (at level 100, m at next level, right associativity).
Notation "m ;; k" := (bind m (fun _ => k))
  (at level 100, right associativity).

(** [return r]. *)
Definition return_ {R A} (r : R) : M R A := fun st => (FReturn r, st).

(** A run-time panic. *)
Definition panic {R A} (msg : string) : M R A := fun st => (FPanic msg, st).

Definition emit {R} (e : Event) : M R unit :=
  fun st => (FNext tt, mkSt (e :: events st) (frames_read st)).

(** [defer d] followed by [body]: [d] runs when the function returns
    or panics; it does not run when the process exits, nor while a call
    of [body] is still blocked. *)
Definition defer {R A} (d : M R unit) (body : M R A) : M R A :=
  fun st =>
    match body st with
    | (FExit c, st') => (FExit c, st')
    | (FBlock, st') => (FBlock, st')
    | (fl, st') => (fl, snd (d st'))
    end.

(** How a call ends, for its caller. *)
Inductive Outcome (R : Type) : Type :=
| Returned (r : R)
| Exited (code : Z)
| Panicked (msg : string)
| Blocked.

Arguments Returned {R} r.
Arguments Exited {R} code.
Arguments Panicked {R} msg.
Arguments Blocked {R}.

(** A call of a function with body [body]: its outcome and the events
    in the order they happened. *)
Definition call {R} (body : M R R) : Outcome R * list Event :=
  let '(fl, st) := body (mkSt [] 0) in
  (match fl with
   | FNext r => Returned r
   | FReturn r => Returned r
   | FExit c => Exited c
   | FPanic msg => Panicked msg
   | FBlock => Blocked
   end, rev (events st)).

(** *** Logging and metrics *)

Definition log_Println {R} (line : string) : M R unit := emit (EvLog line).
Definition log_Printf {R} (line : string) : M R unit := emit (EvLog line).

(** [log.Fatal]: the line is logged and the process exits with status 1. *)
Definition log_Fatal {R} (line : string) : M R unit :=
  fun st => (FExit 1, mkSt (EvLogFatal line :: events st) (frames_read st)).

Definition metrics_ReportFuncCall {R} (tags : list (string * string)) : M R unit :=
  emit (EvReportFuncCall tags).

(** [metrics.ReportFuncTiming] starts the timer and gives the function
    that stops it. *)
Definition metrics_ReportFuncTiming {R} (tags : list (string * string)) : M R (M R unit) :=
  emit (EvReportFuncTiming tags) ;; next (emit EvTimingDone).

(** *** The websocket session *)

Definition dialer_Dial {R} (w : Env) (urlStr : string)
    (requestHeader : list (string * string)) : M R DialResult :=
  emit (EvDial urlStr requestHeader true) ;; next (Dial w urlStr requestHeader).

Definition conn_Close {R} : M R unit := emit EvClose.

Definition conn_WriteMessage {R} (w : Env) (data : string) : M R (option error) :=
  emit (EvWriteMessage data) ;; next (WriteMessage w data).

(** [conn.ReadMessage]: the next frame of the session, or its error. *)
Definition conn_ReadMessage {R} (w : Env) : M R (string + error) :=
  fun st =>
    let st' := mkSt (EvReadMessage :: events st) (Datatypes.S (frames_read st)) in
    match ReadMessage w (frames_read st) with
    | Frame message => (FNext (inl message), st')
    | ReadErr err => (FNext (inr err), st')
    | NoFrame => (FBlock, mkSt (EvReadMessage :: events st) (frames_read st))
    end.

(** ** The pull (lines 136-209) *)

(** The result list of [PullAssetPair]. *)
Definition PullResult : Type := (AssetPair * option error)%type.

(** The loop [for count < 2] of [PullAssetPair]: [count] goes from 0 to
    2 by one per turn, so the body runs for the [turns] that are left;
    each turn reads one frame into [msgNeed]. *)
Fixpoint read_frames (w : Env) (turns : nat) (msgNeed : string) : M PullResult string :=
  match turns with
  | O => next msgNeed
  | Datatypes.S turns =>
      r <- conn_ReadMessage w ;;
      match r with
      | inr err =>
          log_Println "Error reading message:" ;;
          return_ (AssetPair_zero, None)
      | inl message => read_frames w turns message
      end
  end.

(** The handshake diagnostics of a failed dial: the status, and one
    line per header of the response (the lines are logged by their
    format, so the order of the range over the headers does not show). *)
Definition log_handshake (resp : option Response) : M PullResult unit :=
  match resp with
  | Some resp =>
      log_Printf "Handshake failed with status: %d" ;;
      foldr (fun kv k => log_Printf "%s: %v" ;; k) (next tt) (resp_Header resp)
  | None => next tt
  end.

(** The request header of the dial: [header.Add("Authorization",
    "Basic "+base64.StdEncoding.EncodeToString([]byte(f.header)))] on
    an empty [http.Header]. *)
Definition request_header (f : storkPriceFeed) : list (string * string) :=
  [("Authorization", "Basic " +:+ base64_EncodeToString (header f))].

(** [PullAssetPair].  The parameter [ctx] is not used by the body. *)
Definition PullAssetPair (w : Env) (f : storkPriceFeed) (ctx : Context)
    : M PullResult PullResult :=
  metrics_ReportFuncCall (svcTags f) ;;
  doneFn <- metrics_ReportFuncTiming (svcTags f) ;;
  defer doneFn (
    match url_Parse w (url f) with
    | inr err =>
        log_Fatal "Error parsing URL:" ;;
        return_ (AssetPair_zero, None)
    | inl u =>
        let header_ := request_header f in
        dialed <- dialer_Dial w (URL_String u) header_ ;;
        match dialed with
        | DialErr resp err =>
            log_handshake resp ;;
            log_Fatal "Error connecting to WebSocket:" ;;
            return_ (AssetPair_zero, None)
        | DialOk resp =>
            defer conn_Close (
              log_Println "Connected to WebSocket server:" ;;
              err <- conn_WriteMessage w (message f) ;;
              match err with
              | Some _ =>
                  log_Fatal "Error writing message:" ;;
                  return_ (AssetPair_zero, None)
              | None =>
                  msgNeed <- read_frames w 2 "" ;;
                  log_Println "Interrupt received, closing connection" ;;
                  match json_Unmarshal w msgNeed with
                  | inr err => return_ (AssetPair_zero, None)
                  | inl msgResp =>
                      let assetIds :=
                        foldl (fun (assetIds : list string) key => (assetIds ++ [key])%list)
                              [] (range_keys w (Data_ msgResp)) in
                      match assetIds !! 0%nat with
                      | None => panic "index out of range [0] with length 0"
                      | Some id0 =>
                          let assetPairs :=
                            ConvertDataToAssetPair
                              (default Data_zero (Data_ msgResp !! id0)) id0 in
                          return_ (assetPairs, None)
                      end
                  end
              end)
        end
    end).

(** [decimal.Decimal]: a coefficient and a power of ten. *)
Record Decimal : Type := mkDecimal { coefficient : Z; exponent : Z }.

(** Modelled from the spec: the package-level value [zeroPrice] is
    declared in another file of the package; it is the zero decimal. *)
Definition zeroPrice : Decimal := mkDecimal 0 0.

(** [PullPrice]. *)
Definition PullPrice (w : Env) (f : storkPriceFeed) (ctx : Context)
    : M (Decimal * option error) (Decimal * option error) :=
  return_ (zeroPrice, None).

(** ** Signature assembly in the specification's words *)

(** The second reading of the assembly, written from the specification
    and not from the code: strip a leading 0x from each component,
    concatenate R, S and V, and hex-decode the result, which fails on a
    character that is no hexadecimal digit and on an odd length. *)

Definition spec_strip_0x (s : string) : string :=
  match s with
  | String "0" (String "x" rest) => rest
  | _ => s
  end.

Fixpoint index_of (c : ascii) (alphabet : string) : option nat :=
  match alphabet with
  | EmptyString => None
  | String a rest =>
      if Ascii.eqb c a then Some O else option_map Datatypes.S (index_of c rest)
  end.

Definition spec_hex_digit (c : ascii) : option nat :=
  match index_of c "0123456789abcdef" with
  | Some n => Some n
  | None => index_of c "0123456789ABCDEF"
  end.

Definition spec_byte (hi lo : nat) : byte :=
  byte_of_ascii (ascii_of_nat (16 * hi + lo)).

Fixpoint spec_hex_decode (s : string) : option (list byte) :=
  match s with
  | EmptyString => Some []
  | String _ EmptyString => None
  | String h (String l rest) =>
      match spec_hex_digit h, spec_hex_digit l, spec_hex_decode rest with
      | Some a, Some b, Some bs => Some (spec_byte a b :: bs)
      | _, _, _ => None
      end
  end.

Definition spec_stripped (signature : Signature) : string :=
  spec_strip_0x (sig_R signature) +:+ spec_strip_0x (sig_S signature)
    +:+ spec_strip_0x (sig_V signature).

Definition spec_assemble (signature : Signature) : option (list byte) :=
  spec_hex_decode (spec_stripped signature).

(** A string of hexadecimal digits only. *)
Fixpoint all_hex (s : string) : bool :=
  match s with
  | EmptyString => true
  | String c rest => bool_decide (is_Some (spec_hex_digit c)) && all_hex rest
  end.

(** The whole pairs of characters of a string: the string itself, or
    the string without its last character when its length is odd. *)
Fixpoint whole_pairs (s : string) : string :=
  match s with
  | String a (String b rest) => String a (String b (whole_pairs rest))
  | _ => EmptyString
  end.

(** What the specification calls a malformed signature: a component
    that is not all hexadecimal digits once stripped, or an odd number
    of digits in all. *)
Definition spec_malformed (signature : Signature) : Prop :=
  all_hex (spec_strip_0x (sig_R signature)) = false \/
  all_hex (spec_strip_0x (sig_S signature)) = false \/
  all_hex (spec_strip_0x (sig_V signature)) = false \/
  Nat.odd (String.length (spec_stripped signature)) = true.

(** A signed price that carries [signature] and nothing else. *)
Definition signed_with (signature : Signature) : SignedPrice :=
  mkSignedPrice "" "" "" (mkLegacyDec 0) (mkTimestampedSignature signature 0 "").

(** Signatures used as examples: the one of the specification, one
    with a component that is no hexadecimal number, one with an odd
    number of digits. *)
Definition sig_example : Signature := mkSignature "0xAB" "CD" "0x01".
Definition sig_bad_digit : Signature := mkSignature "0xAB" "ZZ" "01".
Definition sig_odd : Signature := mkSignature "0xABC" "" "".

(** ** Configurations and feeds that the statements below speak of *)

(** The feed that [NewStorkPriceFeed] builds from [cfg] once it has
    settled on the interval [pullInterval] and the classification
    [oracleType]. *)
Definition feed_of (cfg : StorkFeedConfig) (pullInterval : Z)
    (oracleType : oracletypes_OracleType) : storkPriceFeed :=
  {| ticker := Ticker cfg;
     providerName := ProviderName cfg;
     interval := pullInterval;
     url := Url cfg;
     header := Header cfg;
     message := Message cfg;
     oracleType := oracleType;
     logger := [("svc", "oracle"); ("dynamic", "true"); ("provider", ProviderName cfg)];
     svcTags := [("provider", ProviderName cfg)] |}.

(** The interval of [cfg] passes the checks of [NewStorkPriceFeed] and
    is [d]: the string is empty and [d] is the default, or it parses to
    [d] of at least one second. *)
Definition interval_accepted (cfg : StorkFeedConfig) (d : Z) : Prop :=
  (PullInterval cfg = "" /\ d = 1 * time_Minute) \/
  (PullInterval cfg <> "" /\
   time_ParseDuration (PullInterval cfg) = (d, None) /\ time_Second <= d).

(** The oracle type of [cfg] resolves to [t]: the name is empty and [t]
    is the price-feed default, or it is a name of the table. *)
Definition oracle_type_resolves (cfg : StorkFeedConfig) (t : oracletypes_OracleType) : Prop :=
  (OracleType cfg = "" /\ t = OracleType_PriceFeed) \/
  (OracleType cfg <> "" /\ OracleType_value !! OracleType cfg = Some t).

(** A configuration with the given interval and oracle type. *)
Definition cfg_with (pullInterval oracleType : string) : StorkFeedConfig :=
  {| ProviderName := "stork"; Ticker := "BTCUSD"; PullInterval := pullInterval;
     Url := "wss://api.stork.example/ws"; Header := "user:secret";
     Message := "subscribe BTCUSD"; OracleType := oracleType |}.

(** ** Calls of the pulls, and what a session does *)

Definition run_PullAssetPair (w : Env) (f : storkPriceFeed) (ctx : Context)
    : Outcome PullResult * list Event :=
  call (PullAssetPair w f ctx).

Definition run_PullPrice (w : Env) (f : storkPriceFeed) (ctx : Context)
    : Outcome (Decimal * option error) * list Event :=
  call (PullPrice w f ctx).

(** The endpoint parses and the dial succeeds. *)
Definition connects (w : Env) (f : storkPriceFeed) : Prop :=
  exists u resp,
    url_Parse w (url f) = inl u /\
    Dial w (URL_String u) (request_header f) = DialOk resp.

(** ... and the subscription message is written. *)
Definition subscribes (w : Env) (f : storkPriceFeed) : Prop :=
  connects w f /\ WriteMessage w (message f) = None.

(** ... and two frames arrive, the second being [msgNeed]. *)
Definition receives (w : Env) (f : storkPriceFeed) (msgNeed : string) : Prop :=
  subscribes w f /\
  exists first, ReadMessage w 0 = Frame first /\ ReadMessage w 1 = Frame msgNeed.

(** ... and the second frame decodes to [msgResp]. *)
Definition decodes (w : Env) (f : storkPriceFeed) (msgResp : messageResponse) : Prop :=
  exists msgNeed, receives w f msgNeed /\ json_Unmarshal w msgNeed = inl msgResp.

(** The ways a pull can fail. *)
Inductive FailureCategory : Type :=
| MalformedEndpoint
| DialFailure
| WriteFailure
| ReadFailure
| DecodeFailure.

Inductive pull_fails (w : Env) (f : storkPriceFeed) : FailureCategory -> Prop :=
| fails_endpoint err :
    url_Parse w (url f) = inr err ->
    pull_fails w f MalformedEndpoint
| fails_dial u resp err :
    url_Parse w (url f) = inl u ->
    Dial w (URL_String u) (request_header f) = DialErr resp err ->
    pull_fails w f DialFailure
| fails_write err :
    connects w f ->
    WriteMessage w (message f) = Some err ->
    pull_fails w f WriteFailure
| fails_first_read err :
    subscribes w f ->
    ReadMessage w 0 = ReadErr err ->
    pull_fails w f ReadFailure
| fails_second_read first err :
    subscribes w f ->
    ReadMessage w 0 = Frame first ->
    ReadMessage w 1 = ReadErr err ->
    pull_fails w f ReadFailure
| fails_decode msgNeed err :
    receives w f msgNeed ->
    json_Unmarshal w msgNeed = inr err ->
    pull_fails w f DecodeFailure.

(** How many times the connection was closed in a trace. *)
Definition is_close (e : Event) : bool :=
  match e with
  | EvClose => true
  | _ => false
  end.

Definition closes (trace : list Event) : nat := length (List.filter is_close trace).

(** The call came back to its caller, by a return or by a panic. *)
Definition came_back {R} (o : Outcome R) : Prop :=
  match o with
  | Returned _ | Panicked _ => True
  | Exited _ | Blocked => False
  end.

(** The events of a pull up to the first blocking step, and up to
    the first read of a session that was opened. *)
Definition trace_start (f : storkPriceFeed) : list Event :=
  [EvReportFuncCall (svcTags f); EvReportFuncTiming (svcTags f)].

Definition trace_session (f : storkPriceFeed) (u : URL) : list Event :=
  (trace_start f ++
   [EvDial (URL_String u) (request_header f) true;
    EvLog "Connected to WebSocket server:";
    EvWriteMessage (message f)])%list.

(** The lines logged for a handshake that was answered. *)
Definition handshake_log (resp : option Response) : list Event :=
  match resp with
  | Some resp =>
      EvLog "Handshake failed with status: %d"
        :: map (fun _ => EvLog "%s: %v") (resp_Header resp)
  | None => []
  end.

(** The end of a pull that read its two frames and came back. *)
Definition trace_decoded (f : storkPriceFeed) (u : URL) : list Event :=
  (trace_session f u ++
   [EvReadMessage; EvReadMessage;
    EvLog "Interrupt received, closing connection"; EvClose; EvTimingDone])%list.

(** ** Example sessions *)

Definition response_switching : Response :=
  mkResponse "101 Switching Protocols" 101 [].

Definition data_btc : Data :=
  mkData 1700000000 "BTCUSD" "evm" "clock" "67000"
    [ mkSignedPrice "0xpublisher" "BTCUSD" "evm" (mkLegacyDec (67000 * 10 ^ 18))
        (mkTimestampedSignature sig_example 1700000000 "0xhash") ].

Definition data_eth : Data :=
  mkData 1700000000 "ETHUSD" "evm" "clock" "3500" [].

Definition envelope_empty : messageResponse := mkMessageResponse "" "" ∅.

Definition envelope_one : messageResponse :=
  mkMessageResponse "oracle_prices" "trace-1" {[ "BTCUSD" := data_btc ]}.

Definition envelope_two : messageResponse :=
  mkMessageResponse "oracle_prices" "trace-2"
    (<[ "ETHUSD" := data_eth ]> {[ "BTCUSD" := data_btc ]}).

(** JSON text written with single quotes for double ones. *)
Fixpoint json_text (s : string) : string :=
  match s with
  | EmptyString => EmptyString
  | String c rest =>
      String (if Ascii.eqb c "'" then ascii_of_nat 34 else c) (json_text rest)
  end.

Definition json_btc : string :=
  "'BTCUSD':{'timestamp':1700000000,'asset_id':'BTCUSD','signature_type':'evm'," +:+
  "'trigger':'clock','price':'67000','signed_prices':[{'publisher_key':'0xpublisher'," +:+
  "'external_asset_id':'BTCUSD','signature_type':'evm','price':'67000'," +:+
  "'timestamped_signature':{'signature':{'r':'0xAB','s':'CD','v':'0x01'}," +:+
  "'timestamp':1700000000,'msg_hash':'0xhash'}}]}".

Definition json_eth : string :=
  "'ETHUSD':{'timestamp':1700000000,'asset_id':'ETHUSD','signature_type':'evm'," +:+
  "'trigger':'clock','price':'3500','signed_prices':[]}".

(** The frames of the two envelopes. *)
Definition frame_one_asset : string :=
  json_text ("{'type':'oracle_prices','trace_id':'trace-1','data':{" +:+ json_btc +:+ "}}").
Definition frame_two_assets : string :=
  json_text ("{'type':'oracle_prices','trace_id':'trace-2','data':{" +:+ json_btc +:+ ","
             +:+ json_eth +:+ "}}").

(** The example decoder, [json.Unmarshal] on the frames of the example
    sessions: the frame [{}] is a JSON object without a data member and
    decodes to the empty envelope, the two frames above decode to their
    envelopes, and the other frames of the examples are no JSON. *)

Definition example_Unmarshal (data : string) : messageResponse + error :=
  if String.eqb data "{}" then inl envelope_empty
  else if String.eqb data frame_one_asset then inl envelope_one
  else if String.eqb data frame_two_assets then inl envelope_two
  else inr (errorString "invalid character").

(** Two orders in which a range may visit the keys of a map. *)
Definition range_forward (m : gmap string Data) : list string := (map_to_list m).*1.
Definition range_backward (m : gmap string Data) : list string := rev (map_to_list m).*1.

(** An endpoint that accepts the session and sends [frames]. *)
Definition session (frames : list ReadResult)
    (order : gmap string Data -> list string) : Env :=
  {| url_Parse := fun rawurl => inl (mkURL rawurl);
     Dial := fun _ _ => DialOk response_switching;
     WriteMessage := fun _ => None;
     ReadMessage := fun n => nth n frames NoFrame;
     json_Unmarshal := example_Unmarshal;
     range_keys := order |}.

(** Sessions that fail at the endpoint, at the dial and at the write. *)
Definition session_bad_endpoint : Env :=
  {| url_Parse := fun rawurl => inr (errorString "missing protocol scheme");
     Dial := fun _ _ => DialOk response_switching;
     WriteMessage := fun _ => None;
     ReadMessage := fun n => NoFrame;
     json_Unmarshal := example_Unmarshal;
     range_keys := range_forward |}.

Definition session_refused : Env :=
  {| url_Parse := fun rawurl => inl (mkURL rawurl);
     Dial := fun _ _ =>
       DialErr (Some (mkResponse "401 Unauthorized" 401 [("Server", ["stork"])]))
               (errorString "websocket: bad handshake");
     WriteMessage := fun _ => None;
     ReadMessage := fun n => NoFrame;
     json_Unmarshal := example_Unmarshal;
     range_keys := range_forward |}.

Definition session_write_fails : Env :=
  {| url_Parse := fun rawurl => inl (mkURL rawurl);
     Dial := fun _ _ => DialOk response_switching;
     WriteMessage := fun _ => Some (errorString "broken pipe");
     ReadMessage := fun n => NoFrame;
     json_Unmarshal := example_Unmarshal;
     range_keys := range_forward |}.

(** The feed of the default configuration. *)
Definition feed_btc : storkPriceFeed :=
  feed_of (cfg_with "" "") (60 * time_Second) OracleType_PriceFeed.

(** ** The network side of a trace *)

(** The events that touch the connection. *)
Definition is_network (e : Event) : bool :=
  match e with
  | EvDial _ _ _ | EvWriteMessage _ | EvReadMessage | EvClose => true
  | _ => false
  end.

Definition network (trace : list Event) : list Event := List.filter is_network trace.

(** What a session does on the wire when nothing stops it, up to the
    close: the dial, the one text frame, the two reads. *)
Definition session_script (f : storkPriceFeed) (u : URL) : list Event :=
  [EvDial (URL_String u) (request_header f) true;
   EvWriteMessage (message f); EvReadMessage; EvReadMessage].

(** The environment [w] with [first] for its first frame. *)
Definition with_first_frame (w : Env) (first : string) : Env :=
  {| url_Parse := url_Parse w;
     Dial := Dial w;
     WriteMessage := WriteMessage w;
     ReadMessage := fun n =>
       match n with
       | O => Frame first
       | Datatypes.S _ => ReadMessage w n
       end;
     json_Unmarshal := json_Unmarshal w;
     range_keys := range_keys w |}.

(** ** Hexadecimal encoding *)

(** [hex.EncodeToString]: two digits of [hextable] per byte, the high
    four bits first. *)
Definition hextable : string := "0123456789abcdef".

Definition hex_digit (n : N) : ascii :=
  match String.get (N.to_nat n) hextable with
  | Some c => c
  | None => "0"%char
  end.

Fixpoint hex_EncodeToString (src : list byte) : string :=
  match src with
  | [] => EmptyString
  | v :: rest =>
      String (hex_digit (N.shiftr (Byte.to_N v) 4))
        (String (hex_digit (N.land (Byte.to_N v) 15)) (hex_EncodeToString rest))
  end.

(** A component of a signature as providers write it: the digits, with
    or without the 0x prefix. *)
Definition with_0x (prefixed : bool) (digits : string) : string :=
  if prefixed then "0x" +:+ digits else digits.

(* ================================================================== *)
(** * Theorems *)
(* ================================================================== *)

Example hex2bytes_abcd01 :
  common_Hex2Bytes "ABCD01" = [Byte.xab; Byte.xcd; Byte.x01].
Proof. reflexivity. Qed.

Example parse_500ms : time_ParseDuration "500ms" = (500000000, None).
Proof. vm_compute. reflexivity. Qed.

Example parse_1h30m : time_ParseDuration "1h30m" = (5400000000000, None).
Proof. vm_compute. reflexivity. Qed.

Example parse_1_5h : time_ParseDuration "1.5h" = (5400000000000, None).
Proof. vm_compute. reflexivity. Qed.

Example parse_neg : time_ParseDuration "-2.25s" = (-2250000000, None).
Proof. vm_compute. reflexivity. Qed.

Example parse_60 : time_ParseDuration "60" = (0, Some err_missing_unit).
Proof. vm_compute. reflexivity. Qed.

Example parse_bad_unit : time_ParseDuration "3x" = (0, Some err_unknown_unit).
Proof. vm_compute. reflexivity. Qed.

Example parse_0 : time_ParseDuration "0" = (0, None).
Proof. vm_compute. reflexivity. Qed.

(** Entries of the library's own table of tests for [ParseDuration],
    among them fractions of hours that need the floating-point
    arithmetic, and the ends of the range. *)
Example parse_fraction_of_hour :
  time_ParseDuration "0.830103483285477580700h"
  = (49 * time_Minute + 48 * time_Second + 372539827, None).
Proof. vm_compute. reflexivity. Qed.

Example parse_fraction_of_hour_long :
  time_ParseDuration "0.9223372036854775807h"
  = (55 * time_Minute + 20 * time_Second + 413933267, None).
Proof. vm_compute. reflexivity. Qed.

Example parse_third_of_hour :
  time_ParseDuration "0.3333333333333333333h" = (20 * time_Minute, None).
Proof. vm_compute. reflexivity. Qed.

Example parse_max :
  time_ParseDuration "9223372036s854ms775us807ns" = (2 ^ 63 - 1, None).
Proof. vm_compute. reflexivity. Qed.

Example parse_max_fraction :
  time_ParseDuration "9223372036854775.807us" = (2 ^ 63 - 1, None).
Proof. vm_compute. reflexivity. Qed.

Example parse_min :
  time_ParseDuration "-2562047h47m16.854775808s" = (- 2 ^ 63, None).
Proof. vm_compute. reflexivity. Qed.

Example parse_overflow :
  time_ParseDuration "9223372036854775808ns" = (0, Some err_invalid_duration) /\
  time_ParseDuration "9223372036854ms775us808ns" = (0, Some err_invalid_duration) /\
  time_ParseDuration "3000000h" = (0, Some err_invalid_duration).
Proof. vm_compute. repeat split. Qed.

Example parse_micro :
  time_ParseDuration ("52763797000" +:+ mu_us) = (52763797 * time_Millisecond, None).
Proof. vm_compute. reflexivity. Qed.

Example parse_no_digits :
  time_ParseDuration ".s" = (0, Some err_invalid_duration) /\
  time_ParseDuration "" = (0, Some err_invalid_duration) /\
  time_ParseDuration "+" = (0, Some err_invalid_duration).
Proof. vm_compute. repeat split. Qed.

Example base64_credential : base64_EncodeToString "user:secret" = "dXNlcjpzZWNyZXQ=".
Proof. reflexivity. Qed.

(** ** Hexadecimal decoding: the code against the specification *)

Lemma fromHexChar_spec (c : ascii) :
  fromHexChar c = option_map N.of_nat (spec_hex_digit c).
Proof.
  destruct c as [[] [] [] [] [] [] [] []]; vm_compute; reflexivity.
Qed.

Lemma spec_hex_digit_bound (c : ascii) (n : nat) :
  spec_hex_digit c = Some n -> (n < 16)%nat.
Proof.
  destruct c as [[] [] [] [] [] [] [] []]; vm_compute; intros H;
    first [ discriminate H | injection H as <-; lia ].
Qed.

Lemma hex_byte_spec (a b : nat) :
  (a < 16)%nat -> (b < 16)%nat ->
  hex_byte (N.of_nat a) (N.of_nat b) = spec_byte a b.
Proof.
  intros Ha Hb.
  do 16 (destruct a as [|a];
         [ do 16 (destruct b as [|b]; [ reflexivity | ]); lia | ]).
  lia.
Qed.

Lemma substring_all (s : string) :
  String.substring 0 (String.length s) s = s.
Proof. induction s as [|c s IH]; simpl; [ reflexivity | now rewrite IH ]. Qed.

(** [strings.TrimPrefix(s, "0x")] is the specification's stripping. *)
Lemma TrimPrefix_0x_spec (s : string) :
  strings_TrimPrefix s "0x" = spec_strip_0x s.
Proof.
  unfold strings_TrimPrefix, strings_HasPrefix.
  destruct s as [|c1 [|c2 s]]; cbn -[ascii_dec]; try reflexivity.
  - destruct (ascii_dec "0" c1) as [<-|Hne]; [ reflexivity | ].
    destruct c1 as [[] [] [] [] [] [] [] []]; try reflexivity.
  - destruct (ascii_dec "0" c1) as [<-|Hne1].
    + destruct (ascii_dec "x" c2) as [<-|Hne2].
      * replace (String.prefix "" s) with true by (destruct s; reflexivity).
        rewrite Nat.sub_0_r. apply substring_all.
      * destruct c2 as [[] [] [] [] [] [] [] []]; try reflexivity.
        now contradict Hne2.
    + destruct c1 as [[] [] [] [] [] [] [] []]; try reflexivity.
      now contradict Hne1.
Qed.

Lemma CombineSignatureToString_spec (signature : Signature) :
  CombineSignatureToString signature = spec_stripped signature.
Proof.
  unfold CombineSignatureToString, spec_stripped.
  now rewrite !TrimPrefix_0x_spec.
Qed.

(** Induction over a string two characters at a time, the way the
    decoders read it. *)
Lemma string_pair_ind (P : string -> Prop) :
  P EmptyString ->
  (forall c, P (String c EmptyString)) ->
  (forall p q rest, P rest -> P (String p (String q rest))) ->
  forall s, P s.
Proof.
  intros H0 H1 H2 s.
  enough (P s /\ forall c, P (String c s)) as [Hs _] by exact Hs.
  induction s as [|c s [IH1 IH2]]; split; auto.
Qed.

(** Where the specification's decoder succeeds, the library's decoder
    gives the same bytes and no error. *)
Lemma hex_Decode_spec (s : string) (bs : list byte) :
  spec_hex_decode s = Some bs -> hex_Decode s = (bs, None).
Proof.
  revert bs. induction s as [|c|p q rest IH] using string_pair_ind;
    intros bs H; simpl in H |- *.
  - now injection H as <-.
  - discriminate H.
  - rewrite !fromHexChar_spec.
    destruct (spec_hex_digit p) as [a|] eqn:Hp; [ | discriminate H ].
    destruct (spec_hex_digit q) as [b|] eqn:Hq; [ | discriminate H ].
    destruct (spec_hex_decode rest) as [bs'|] eqn:Hr; [ | discriminate H ].
    injection H as <-. simpl.
    rewrite (IH bs' eq_refl).
    rewrite hex_byte_spec by eauto using spec_hex_digit_bound.
    reflexivity.
Qed.

Lemma all_hex_app (a b : string) :
  all_hex (a +:+ b) = all_hex a && all_hex b.
Proof.
  induction a as [|c a IH]; simpl; [ reflexivity | ].
  now rewrite IH, andb_assoc.
Qed.

Lemma append_empty_r (a : string) : a +:+ "" = a.
Proof.
  induction a as [|c a IH]; [ reflexivity | ].
  change (String c (a +:+ "") = String c a). now rewrite IH.
Qed.

Lemma length_append (a b : string) :
  String.length (a +:+ b) = (String.length a + String.length b)%nat.
Proof. induction a as [|c a IH]; simpl; [ reflexivity | now rewrite IH ]. Qed.

(** The specification's decoder succeeds exactly on an even number of
    hexadecimal digits. *)
Lemma spec_hex_decode_Some (s : string) :
  is_Some (spec_hex_decode s) <->
  all_hex s = true /\ Nat.even (String.length s) = true.
Proof.
  induction s as [|c|p q rest IH] using string_pair_ind.
  - simpl. split; [ intros _; split; reflexivity | intros _; eexists; reflexivity ].
  - cbn [spec_hex_decode String.length Nat.even]. split.
    + intros [x Hx]; discriminate Hx.
    + intros [_ H]; discriminate H.
  - cbn [spec_hex_decode all_hex String.length Nat.even].
    destruct (spec_hex_digit p) as [a|]; cbn.
    2: { split; [ intros [x Hx]; discriminate Hx | intros [H _]; discriminate H ]. }
    destruct (spec_hex_digit q) as [b|]; cbn.
    2: { split; [ intros [x Hx]; discriminate Hx | intros [H _]; discriminate H ]. }
    rewrite <- IH.
    destruct (spec_hex_decode rest) as [bs|].
    + split; intros _; eexists; reflexivity.
    + split; intros [x Hx]; discriminate Hx.
Qed.

Lemma spec_hex_decode_None (s : string) :
  spec_hex_decode s = None <->
  all_hex s = false \/ Nat.odd (String.length s) = true.
Proof.
  pose proof (spec_hex_decode_Some s) as H. unfold Nat.odd. split.
  - intros Hn. rewrite Hn in H.
    destruct (all_hex s); [ | now left ]. right.
    destruct (Nat.even (String.length s)); [ | reflexivity ].
    destruct (proj2 H (conj eq_refl eq_refl)) as [x Hx]. discriminate Hx.
  - intros Hm. destruct (spec_hex_decode s) as [bs|]; [ | reflexivity ].
    destruct (proj1 H (ex_intro _ bs eq_refl)) as [Ha He].
    rewrite Ha, He in Hm. destruct Hm as [Hm|Hm]; discriminate Hm.
Qed.

Lemma spec_malformed_assemble (signature : Signature) :
  spec_malformed signature <-> spec_assemble signature = None.
Proof.
  unfold spec_malformed, spec_assemble. rewrite spec_hex_decode_None.
  unfold spec_stripped at 2. rewrite !all_hex_app.
  destruct (all_hex (spec_strip_0x (sig_R signature))),
           (all_hex (spec_strip_0x (sig_S signature))),
           (all_hex (spec_strip_0x (sig_V signature))); cbn; tauto.
Qed.

(** What the library's decoder returns on any input: the bytes of the
    pairs of digits that come before the first offence, and an error
    exactly when something is left over. *)
Lemma hex_Decode_prefix (s : string) :
  exists p rest,
    s = p +:+ rest /\
    spec_hex_decode p = Some (fst (hex_Decode s)) /\
    ((snd (hex_Decode s) = None /\ rest = "") \/
     (is_Some (snd (hex_Decode s)) /\ rest <> "" /\
      spec_hex_decode (String.substring 0 2 rest) = None)).
Proof.
  induction s as [|c|p q rest IH] using string_pair_ind.
  - exists "", "". cbn. auto.
  - exists "", (String c ""). cbn.
    destruct (fromHexChar c); cbn;
      (split; [ reflexivity | split; [ reflexivity | right ] ]);
      (split; [ eexists; reflexivity | split; [ discriminate | reflexivity ] ]).
  - cbn [hex_Decode]. rewrite !fromHexChar_spec.
    destruct (spec_hex_digit p) as [a|] eqn:Hp; cbn.
    2: { exists "", (String p (String q rest)). cbn. rewrite Hp.
         split; [ reflexivity | split; [ reflexivity | right ] ].
         split; [ eexists; reflexivity | split; [ discriminate | reflexivity ] ]. }
    destruct (spec_hex_digit q) as [b|] eqn:Hq; cbn.
    2: { exists "", (String p (String q rest)). cbn. rewrite Hp, Hq.
         split; [ reflexivity | split; [ reflexivity | right ] ].
         split; [ eexists; reflexivity | split; [ discriminate | reflexivity ] ]. }
    destruct IH as (p' & rest' & -> & Hdec & Hrest).
    destruct (hex_Decode (p' +:+ rest')) as [bs err] eqn:Hd. cbn in *.
    exists (String p (String q p')), rest'. cbn. rewrite Hp, Hq, Hdec.
    rewrite hex_byte_spec by eauto using spec_hex_digit_bound.
    split; [ reflexivity | split; [ reflexivity | exact Hrest ] ].
Qed.

Lemma whole_pairs_even (s : string) :
  Nat.even (String.length s) = true -> whole_pairs s = s.
Proof.
  induction s as [|c|p q rest IH] using string_pair_ind; intros H.
  - reflexivity.
  - discriminate H.
  - cbn in H |- *. now rewrite (IH H).
Qed.

(** On hexadecimal digits the library's decoder gives the bytes of the
    whole pairs. *)
Lemma hex_Decode_whole_pairs (s : string) :
  all_hex s = true ->
  spec_hex_decode (whole_pairs s) = Some (fst (hex_Decode s)).
Proof.
  induction s as [|c|p q rest IH] using string_pair_ind; intros H.
  - reflexivity.
  - cbn. destruct (fromHexChar c); reflexivity.
  - cbn [all_hex] in H. apply andb_prop in H as [Hp H]. apply andb_prop in H as [Hq H].
    apply bool_decide_eq_true_1 in Hp as [a Hp]. apply bool_decide_eq_true_1 in Hq as [b Hq].
    cbn [whole_pairs spec_hex_decode hex_Decode].
    rewrite !fromHexChar_spec, Hp, Hq, (IH H). cbn.
    destruct (hex_Decode rest) as [bs err]. cbn.
    now rewrite hex_byte_spec by eauto using spec_hex_digit_bound.
Qed.

(** ** Signature assembly *)

Lemma spec_assemble_Hex2Bytes (signature : Signature) (bs : list byte) :
  spec_assemble signature = Some bs ->
  common_Hex2Bytes (CombineSignatureToString signature) = bs.
Proof.
  unfold spec_assemble, common_Hex2Bytes, hex_DecodeString. intros H.
  rewrite CombineSignatureToString_spec.
  now rewrite (hex_Decode_spec _ _ H).
Qed.

(** C7, as the claim states it, fails: the three components of the
    signature (0xABC, empty, empty) are hexadecimal digits once
    stripped, three digits in all; the specification's assembly, strip,
    concatenate, hex-decode, is not defined on an odd number of digits,
    and [ConvertSignedPrice] stores the byte AB. *)
Lemma ConvertSignedPrice_odd_digits_counterexample :
  all_hex (spec_strip_0x (sig_R sig_odd)) = true /\
  all_hex (spec_strip_0x (sig_S sig_odd)) = true /\
  all_hex (spec_strip_0x (sig_V sig_odd)) = true /\
  spec_assemble sig_odd = None /\
  soap_Signature (ConvertSignedPrice (signed_with sig_odd)) = [xab] /\
  spec_assemble sig_odd
    <> Some (soap_Signature (ConvertSignedPrice (signed_with sig_odd))).
Proof.
  split; [ reflexivity | ]. split; [ reflexivity | ]. split; [ reflexivity | ].
  split; [ reflexivity | ]. split; [ reflexivity | ].
  discriminate.
Qed.

(** C7, amended.  For every signature whose three components, each
    with an optional 0x prefix, are hexadecimal digits, an even number
    of them in all, the signature bytes that [ConvertSignedPrice] stores
    are the specification's assembly: strip the prefix of each
    component independently, concatenate R, S and V as one hex string,
    hex-decode it.  In particular the signature (0xAB, CD, 0x01) gives
    the bytes AB CD 01. *)
Theorem ConvertSignedPrice_signature_spec :
  (forall (signeds : SignedPrice) (signature : Signature),
     ts_Signature (TimestampedSignature_ signeds) = signature ->
     all_hex (spec_strip_0x (sig_R signature)) = true ->
     all_hex (spec_strip_0x (sig_S signature)) = true ->
     all_hex (spec_strip_0x (sig_V signature)) = true ->
     Nat.even (String.length (spec_stripped signature)) = true ->
     spec_assemble signature = Some (soap_Signature (ConvertSignedPrice signeds))) /\
  soap_Signature (ConvertSignedPrice (signed_with sig_example)) = [xab; xcd; x01].
Proof.
  split; [ | reflexivity ].
  intros signeds signature <- HR HS HV Heven.
  set (signature := ts_Signature (TimestampedSignature_ signeds)) in *.
  unfold spec_assemble. rewrite <- (whole_pairs_even _ Heven).
  unfold ConvertSignedPrice, common_Hex2Bytes, hex_DecodeString.
  cbn [soap_Signature]. fold signature.
  rewrite CombineSignatureToString_spec.
  apply hex_Decode_whole_pairs.
  unfold spec_stripped. rewrite !all_hex_app, HR, HS, HV. reflexivity.
Qed.

Lemma ConvertSignedPrice_signature_spec_witness :
  spec_assemble sig_example
  = Some (soap_Signature (ConvertSignedPrice (signed_with sig_example))).
Proof.
  apply (proj1 ConvertSignedPrice_signature_spec (signed_with sig_example) sig_example);
    reflexivity.
Defined.

(** C4, as the claim states it, fails: a signature with a component
    that is no hexadecimal number, and one with an odd number of digits,
    are malformed for the specification, the decoder does report the
    error, and [ConvertSignedPrice] still stores a byte sequence. *)
Lemma ConvertSignedPrice_malformed_counterexample :
  (spec_malformed sig_bad_digit /\
   spec_assemble sig_bad_digit = None /\
   hex_DecodeString (CombineSignatureToString sig_bad_digit)
     = ([xab], Some (hex_InvalidByteError "Z")) /\
   soap_Signature (ConvertSignedPrice (signed_with sig_bad_digit)) = [xab]) /\
  (spec_malformed sig_odd /\
   spec_assemble sig_odd = None /\
   hex_DecodeString (CombineSignatureToString sig_odd)
     = ([xab], Some hex_ErrLength) /\
   soap_Signature (ConvertSignedPrice (signed_with sig_odd)) = [xab]).
Proof.
  split; (split; [ | split; [ reflexivity | split; reflexivity ] ]).
  - right; left. reflexivity.
  - right; right; right. reflexivity.
Qed.

(** C4, amended.  For every signature in which a component is not
    valid hex after prefix stripping, or whose concatenated hex string
    has odd length, signature assembly does not fail: the hex decoder
    detects the error, the error is dropped, and [ConvertSignedPrice]
    stores the bytes of the pairs of digits [p] that come before the
    first offending position of the concatenated string. *)
Theorem ConvertSignedPrice_malformed_truncates
    (signeds : SignedPrice) (signature : Signature) :
  ts_Signature (TimestampedSignature_ signeds) = signature ->
  spec_malformed signature ->
  exists (p rest : string) (err : error),
    spec_stripped signature = p +:+ rest /\
    rest <> "" /\
    spec_hex_decode (String.substring 0 2 rest) = None /\
    spec_hex_decode p = Some (soap_Signature (ConvertSignedPrice signeds)) /\
    hex_DecodeString (CombineSignatureToString signature)
      = (soap_Signature (ConvertSignedPrice signeds), Some err).
Proof.
  intros <- Hbad.
  set (signature := ts_Signature (TimestampedSignature_ signeds)) in *.
  apply spec_malformed_assemble in Hbad. unfold spec_assemble in Hbad.
  unfold ConvertSignedPrice, common_Hex2Bytes, hex_DecodeString.
  cbn [soap_Signature]. fold signature.
  rewrite CombineSignatureToString_spec.
  destruct (hex_Decode_prefix (spec_stripped signature))
    as (p & rest & Heq & Hp & [[Herr ->] | ([err Herr] & Hrest & Hhead)]).
  - exfalso. rewrite append_empty_r in Heq.
    rewrite <- Heq in Hp. rewrite Hp in Hbad. discriminate Hbad.
  - exists p, rest, err. repeat split; try assumption.
    destruct (hex_Decode (spec_stripped signature)) as [bs e]. cbn in *.
    now rewrite Herr.
Qed.

Lemma ConvertSignedPrice_malformed_truncates_witness :
  exists (p rest : string) (err : error),
    spec_stripped sig_bad_digit = p +:+ rest /\
    rest <> "" /\
    spec_hex_decode (String.substring 0 2 rest) = None /\
    spec_hex_decode p
      = Some (soap_Signature (ConvertSignedPrice (signed_with sig_bad_digit))) /\
    hex_DecodeString (CombineSignatureToString sig_bad_digit)
      = (soap_Signature (ConvertSignedPrice (signed_with sig_bad_digit)), Some err).
Proof.
  apply (ConvertSignedPrice_malformed_truncates (signed_with sig_bad_digit) sig_bad_digit).
  - reflexivity.
  - right; left. reflexivity.
Defined.

(** ** Conversion of an asset record *)

Lemma convert_loop_map (prices : list SignedPrice) (n k : nat)
    (acc : list SignedPriceOfAssetPair) :
  (k + n <= length prices)%nat ->
  convert_loop prices (seq k n) acc
  = (acc ++ map ConvertSignedPrice (take n (drop k prices)))%list.
Proof.
  revert k acc. induction n as [|n IH]; intros k acc Hle; cbn [seq convert_loop].
  - now rewrite take_0, app_nil_r.
  - destruct (lookup_lt_is_Some_2 prices k) as [sp Hsp]; [ lia | ].
    rewrite IH by lia.
    rewrite (drop_S _ _ _ Hsp). cbn [take map].
    rewrite nth_lookup, Hsp. cbn [default].
    now rewrite <- app_assoc.
Qed.

Lemma ConvertDataToAssetPair_map (data : Data) (assetId : string) :
  ConvertDataToAssetPair data assetId
  = mkAssetPair assetId (map ConvertSignedPrice (SignedPrices data)).
Proof.
  unfold ConvertDataToAssetPair.
  rewrite convert_loop_map by (cbn; lia).
  now rewrite drop_0, firstn_all.
Qed.

(** C8.  For every asset record, [ConvertDataToAssetPair] gives an
    asset pair with the given identifier and exactly as many entries as
    the record has signed prices; the entry at each index is the
    conversion of the input entry at that index (none dropped, merged or
    moved), and a conversion copies the publisher key, the timestamp and
    the price and takes the signature bytes from the signature
    assembly. *)
Theorem ConvertDataToAssetPair_entries (data : Data) (assetId : string) :
  AssetId (ConvertDataToAssetPair data assetId) = assetId /\
  length (ap_SignedPrices (ConvertDataToAssetPair data assetId))
    = length (SignedPrices data) /\
  (forall i : nat,
     ap_SignedPrices (ConvertDataToAssetPair data assetId) !! i
     = ConvertSignedPrice <$> SignedPrices data !! i) /\
  (forall signeds : SignedPrice,
     soap_PublisherKey (ConvertSignedPrice signeds) = PublisherKey signeds /\
     soap_Timestamp (ConvertSignedPrice signeds)
       = ts_Timestamp (TimestampedSignature_ signeds) /\
     soap_Price (ConvertSignedPrice signeds) = sp_Price signeds /\
     soap_Signature (ConvertSignedPrice signeds)
       = common_Hex2Bytes
           (CombineSignatureToString (ts_Signature (TimestampedSignature_ signeds)))).
Proof.
  rewrite ConvertDataToAssetPair_map. cbn [AssetId ap_SignedPrices].
  split; [ reflexivity | ].
  split; [ apply length_map | ].
  split; [ intros i; apply list_lookup_fmap | ].
  intros signeds. repeat split.
Qed.

(** ** Parsing of durations *)

Lemma leadingInt_from_length (s : string) (x v : Z) (r : string) :
  leadingInt_from x s = Some (v, r) -> (String.length r <= String.length s)%nat.
Proof.
  revert x. induction s as [|c s IH]; intros x H; cbn in H.
  - injection H as _ <-. reflexivity.
  - destruct (negb (is_digit c)).
    + injection H as _ <-. reflexivity.
    + destruct (2 ^ 63 / 10 <? x); [ discriminate H | ].
      destruct (2 ^ 63 <? wrap64 (x * 10 + digit_value c)); [ discriminate H | ].
      apply IH in H. cbn. lia.
Qed.

Lemma leadingFraction_from_length (s : string) (x : Z) (scale : float64) (overflow : bool) :
  (String.length (snd (leadingFraction_from x scale overflow s)) <= String.length s)%nat.
Proof.
  revert x scale overflow. induction s as [|c s IH]; intros x scale overflow; cbn.
  - reflexivity.
  - destruct (negb (is_digit c)); [ reflexivity | ].
    destruct overflow; [ etransitivity; [ apply IH | lia ] | ].
    destruct ((2 ^ 63 - 1) / 10 <? x); [ etransitivity; [ apply IH | lia ] | ].
    destruct (2 ^ 63 <? wrap64 (x * 10 + digit_value c));
      (etransitivity; [ apply IH | lia ]).
Qed.

Lemma unit_span_length (s u r : string) :
  unit_span s = (u, r) ->
  String.length s = (String.length u + String.length r)%nat.
Proof.
  revert u r. induction s as [|c s IH]; intros u r H; cbn in H.
  - injection H as <- <-. reflexivity.
  - destruct (is_dot c || is_digit c).
    + injection H as <- <-. reflexivity.
    + destruct (unit_span s) as [u' r'] eqn:Hs. injection H as <- <-.
      cbn. now rewrite (IH u' r' eq_refl).
Qed.

Lemma optional_fraction_length (s : string) f scale r post :
  optional_fraction s = (f, scale, r, post) ->
  (String.length r <= String.length s)%nat.
Proof.
  unfold optional_fraction. destruct s as [|c s1].
  - intros H; injection H as _ _ <- _. reflexivity.
  - destruct (is_dot c).
    + pose proof (leadingFraction_from_length s1 0 (float64_of_uint64 1) false) as Hfr.
      unfold leadingFraction. cbv zeta.
      destruct (leadingFraction_from 0 (float64_of_uint64 1) false s1) as [[f' scale'] s2].
      intros H; injection H as _ _ <- _. cbn in Hfr |- *. lia.
    + intros H; injection H as _ _ <- _. reflexivity.
Qed.

(** A group takes at least its unit off the front of the string. *)
Lemma parse_group_shorter (s : string) (v : Z) (r : string) :
  parse_group s = inl (v, r) -> (String.length r < String.length s)%nat.
Proof.
  unfold parse_group. destruct s as [|c0 s0]; [ discriminate | ].
  set (s := String c0 s0).
  destruct (negb (is_dot c0 || is_digit c0)); [ discriminate | ].
  destruct (leadingInt s) as [[v1 s1]|] eqn:Hint; [ | discriminate ].
  apply leadingInt_from_length in Hint.
  destruct (optional_fraction s1) as [[[f scale] s2] post] eqn:Hfrac.
  apply optional_fraction_length in Hfrac.
  match goal with |- context [if ?b then _ else _] => destruct b end;
    [ discriminate | ].
  destruct (unit_span s2) as [u s3] eqn:Hunit.
  apply unit_span_length in Hunit.
  destruct (String.length u =? 0)%nat eqn:Hu; [ discriminate | ].
  apply Nat.eqb_neq in Hu.
  destruct (unitMap !! u) as [unit|]; [ | discriminate ].
  destruct (2 ^ 63 / unit <? v1); [ discriminate | ].
  destruct (0 <? f).
  - match goal with |- context [if ?b then _ else _] => destruct b end;
      [ discriminate | ].
    intros H; injection H as _ <-. lia.
  - intros H; injection H as _ <-. lia.
Qed.

(** The fuel of [parse_groups] is never used up when it is at least the
    length of the string: more fuel changes nothing. *)
Lemma parse_groups_fuel (fuel fuel' : nat) (d : Z) (s : string) :
  (String.length s <= fuel)%nat -> (String.length s <= fuel')%nat ->
  parse_groups fuel d s = parse_groups fuel' d s.
Proof.
  revert fuel' d s. induction fuel as [|fuel IH]; intros fuel' d s H H'.
  - destruct s; [ destruct fuel'; reflexivity | cbn in H; lia ].
  - destruct s as [|c s]; [ destruct fuel'; reflexivity | ].
    destruct fuel' as [|fuel']; [ cbn in H'; lia | ].
    cbn [parse_groups].
    destruct (parse_group (String c s)) as [[v r]|e] eqn:Hg; [ | reflexivity ].
    apply parse_group_shorter in Hg.
    destruct (2 ^ 63 <? wrap64 (d + v)); [ reflexivity | ].
    apply IH; lia.
Qed.

(** ** Construction of the feed *)

Lemma length_pos_nonempty (s : string) :
  (0 <? String.length s)%nat = negb (String.eqb s "").
Proof. destruct s; reflexivity. Qed.

Lemma eqb_empty_false (s : string) : s <> "" -> String.eqb s "" = false.
Proof. intros H. now apply String.eqb_neq. Qed.

(** Once the interval is accepted, the outcome is decided by the
    oracle type alone. *)
Lemma NewStorkPriceFeed_accepted (cfg : StorkFeedConfig) (d : Z) :
  interval_accepted cfg d ->
  NewStorkPriceFeed cfg =
    if String.eqb (OracleType cfg) "" then (Some (feed_of cfg d OracleType_PriceFeed), None)
    else match OracleType_value !! OracleType cfg with
         | None => (None, fmt_Errorf ("oracle type does not exist: " +:+ OracleType cfg))
         | Some tmpType => (Some (feed_of cfg d tmpType), None)
         end.
Proof.
  intros [[Hempty ->] | (Hne & Hparse & Hmin)]; unfold NewStorkPriceFeed.
  - rewrite length_pos_nonempty, Hempty. cbn [String.eqb negb].
    destruct (String.eqb (OracleType cfg) ""); [ reflexivity | ].
    destruct (OracleType_value !! OracleType cfg); reflexivity.
  - rewrite length_pos_nonempty, (eqb_empty_false _ Hne), Hparse. cbn [negb].
    replace (d <? 1 * time_Second) with false by (symmetry; apply Z.ltb_ge; lia).
    destruct (String.eqb (OracleType cfg) ""); [ reflexivity | ].
    destruct (OracleType_value !! OracleType cfg); reflexivity.
Qed.

(** An interval string that parses to at least a second: the feed is
    built (given an oracle type that resolves) and reports that
    interval. *)
Lemma NewStorkPriceFeed_interval_parsed (cfg : StorkFeedConfig)
    (d : Z) (t : oracletypes_OracleType) :
  PullInterval cfg <> "" ->
  time_ParseDuration (PullInterval cfg) = (d, None) ->
  time_Second <= d ->
  oracle_type_resolves cfg t ->
  NewStorkPriceFeed cfg = (Some (feed_of cfg d t), None) /\
  storkPriceFeed_Interval (feed_of cfg d t) = d.
Proof.
  intros Hne Hparse Hmin Ht. split; [ | reflexivity ].
  rewrite (NewStorkPriceFeed_accepted cfg d) by (right; auto).
  destruct Ht as [[-> ->] | [Hn Hv]]; [ reflexivity | ].
  now rewrite (eqb_empty_false _ Hn), Hv.
Qed.

(** The empty interval string: the feed reports sixty seconds. *)
Lemma NewStorkPriceFeed_interval_default (cfg : StorkFeedConfig)
    (t : oracletypes_OracleType) :
  PullInterval cfg = "" ->
  oracle_type_resolves cfg t ->
  NewStorkPriceFeed cfg = (Some (feed_of cfg (60 * time_Second) t), None) /\
  storkPriceFeed_Interval (feed_of cfg (60 * time_Second) t) = 60 * time_Second.
Proof.
  intros Hempty Ht. split; [ | reflexivity ].
  rewrite (NewStorkPriceFeed_accepted cfg (1 * time_Minute)) by (left; auto).
  destruct Ht as [[-> ->] | [Hn Hv]]; [ reflexivity | ].
  now rewrite (eqb_empty_false _ Hn), Hv.
Qed.

(** An interval string that does not parse: the parser's error comes
    back wrapped. *)
Lemma NewStorkPriceFeed_interval_unparsable (cfg : StorkFeedConfig)
    (d : Z) (e : error) :
  PullInterval cfg <> "" ->
  time_ParseDuration (PullInterval cfg) = (d, Some e) ->
  exists msg, NewStorkPriceFeed cfg = (None, Some (withMessage e msg)).
Proof.
  intros Hne Hparse. unfold NewStorkPriceFeed.
  rewrite length_pos_nonempty, (eqb_empty_false _ Hne), Hparse. cbn.
  eexists; reflexivity.
Qed.

(** An interval string that parses to less than a second: the error
    that is wrapped is the nil error of the successful parse, so what
    comes back is a nil feed together with a nil error. *)
Lemma NewStorkPriceFeed_interval_short (cfg : StorkFeedConfig) (d : Z) :
  PullInterval cfg <> "" ->
  time_ParseDuration (PullInterval cfg) = (d, None) ->
  d < time_Second ->
  NewStorkPriceFeed cfg = (None, None).
Proof.
  intros Hne Hparse Hshort. unfold NewStorkPriceFeed.
  rewrite length_pos_nonempty, (eqb_empty_false _ Hne), Hparse. cbn [negb].
  replace (d <? 1 * time_Second) with true by (symmetry; apply Z.ltb_lt; lia).
  reflexivity.
Qed.

(** C3, at the failing input.  The interval string 500ms parses to
    half a second, which is under the minimum, and construction returns
    neither a feed nor an error. *)
Theorem NewStorkPriceFeed_500ms_no_error :
  time_ParseDuration "500ms" = (500 * time_Millisecond, None) /\
  500 * time_Millisecond < time_Second /\
  NewStorkPriceFeed (cfg_with "500ms" "") = (None, None).
Proof.
  assert (time_ParseDuration "500ms" = (500 * time_Millisecond, None)) as Hparse
    by (vm_compute; reflexivity).
  split; [ exact Hparse | ]. split; [ reflexivity | ].
  apply (NewStorkPriceFeed_interval_short _ (500 * time_Millisecond)).
  - discriminate.
  - exact Hparse.
  - reflexivity.
Qed.

Example NewStorkPriceFeed_90s :
  NewStorkPriceFeed (cfg_with "90s" "Stork")
  = (Some (feed_of (cfg_with "90s" "Stork") (90 * time_Second) OracleType_Stork), None).
Proof. vm_compute. reflexivity. Qed.

(** C6, as the claim states it, fails: for the known name PriceFeed,
    and for the empty name, construction succeeds with the matching
    value in the feed's field, and the classification the feed exposes
    is the Stork one, which is another value. *)
Lemma OracleType_counterexample :
  OracleType_value !! "PriceFeed" = Some OracleType_PriceFeed /\
  NewStorkPriceFeed (cfg_with "" "PriceFeed")
    = (Some (feed_of (cfg_with "" "PriceFeed") (60 * time_Second) OracleType_PriceFeed), None) /\
  storkPriceFeed_OracleType
    (feed_of (cfg_with "" "PriceFeed") (60 * time_Second) OracleType_PriceFeed)
    = OracleType_Stork /\
  NewStorkPriceFeed (cfg_with "" "")
    = (Some (feed_of (cfg_with "" "") (60 * time_Second) OracleType_PriceFeed), None) /\
  storkPriceFeed_OracleType
    (feed_of (cfg_with "" "") (60 * time_Second) OracleType_PriceFeed)
    = OracleType_Stork /\
  OracleType_Stork <> OracleType_PriceFeed.
Proof.
  repeat split; try (vm_compute; reflexivity). discriminate.
Qed.

(** C6, amended.  With an interval that construction accepts: for
    every known oracle-type name construction succeeds and the feed's
    [oracleType] field holds the matching enum value; for every unknown
    non-empty name construction fails with an error; for the empty name
    the field holds the price-feed classification.  The classification
    the feed exposes through [OracleType()] is the Stork one for every
    feed. *)
Theorem NewStorkPriceFeed_oracle_type (cfg : StorkFeedConfig) (d : Z) :
  interval_accepted cfg d ->
  (forall t : oracletypes_OracleType,
     OracleType cfg <> "" ->
     OracleType_value !! OracleType cfg = Some t ->
     exists feed, NewStorkPriceFeed cfg = (Some feed, None) /\ oracleType feed = t) /\
  (OracleType cfg <> "" ->
   OracleType_value !! OracleType cfg = None ->
   exists err, NewStorkPriceFeed cfg = (None, Some err)) /\
  (OracleType cfg = "" ->
   exists feed, NewStorkPriceFeed cfg = (Some feed, None) /\
                oracleType feed = OracleType_PriceFeed) /\
  (forall feed : storkPriceFeed, storkPriceFeed_OracleType feed = OracleType_Stork).
Proof.
  intros Hacc. rewrite (NewStorkPriceFeed_accepted cfg d Hacc).
  split; [ | split; [ | split ] ].
  - intros t Hne Hv. rewrite (eqb_empty_false _ Hne), Hv. eexists; split; reflexivity.
  - intros Hne Hv. rewrite (eqb_empty_false _ Hne), Hv. eexists; reflexivity.
  - intros ->. eexists; split; reflexivity.
  - reflexivity.
Qed.

Lemma NewStorkPriceFeed_oracle_type_witness :
  (forall t : oracletypes_OracleType,
     OracleType (cfg_with "90s" "Pyth") <> "" ->
     OracleType_value !! OracleType (cfg_with "90s" "Pyth") = Some t ->
     exists feed, NewStorkPriceFeed (cfg_with "90s" "Pyth") = (Some feed, None) /\
                  oracleType feed = t) /\
  (OracleType (cfg_with "90s" "Pyth") <> "" ->
   OracleType_value !! OracleType (cfg_with "90s" "Pyth") = None ->
   exists err, NewStorkPriceFeed (cfg_with "90s" "Pyth") = (None, Some err)) /\
  (OracleType (cfg_with "90s" "Pyth") = "" ->
   exists feed, NewStorkPriceFeed (cfg_with "90s" "Pyth") = (Some feed, None) /\
                oracleType feed = OracleType_PriceFeed) /\
  (forall feed : storkPriceFeed, storkPriceFeed_OracleType feed = OracleType_Stork).
Proof.
  apply (NewStorkPriceFeed_oracle_type (cfg_with "90s" "Pyth") (90 * time_Second)).
  right. split; [ discriminate | ]. split; [ vm_compute; reflexivity | ].
  vm_compute. discriminate.
Defined.

(** ** The pull, path by path *)

Ltac pull_unfold :=
  cbv beta iota zeta delta
    [run_PullAssetPair call PullAssetPair bind next return_ panic emit defer
     log_Println log_Printf log_Fatal metrics_ReportFuncCall metrics_ReportFuncTiming
     dialer_Dial conn_Close conn_WriteMessage conn_ReadMessage read_frames
     events frames_read fst snd].

Ltac pull_step H := rewrite H; pull_unfold.

Lemma log_headers_next (hs : list (string * list string)) (st : St) :
  foldr (fun (kv : string * list string) (k : M PullResult unit) =>
           log_Printf "%s: %v" ;; k) (next tt) hs st
  = (FNext tt,
     mkSt (rev (map (fun _ => EvLog "%s: %v") hs) ++ events st) (frames_read st)).
Proof.
  revert st. induction hs as [|kv hs IH]; intros st.
  - destruct st; reflexivity.
  - cbn [foldr map rev].
    cbv beta iota zeta delta [bind emit log_Printf].
    rewrite IH. cbn [events frames_read].
    now rewrite <- app_assoc.
Qed.

Lemma log_handshake_next (resp : option Response) (st : St) :
  log_handshake resp st
  = (FNext tt, mkSt (rev (handshake_log resp) ++ events st) (frames_read st)).
Proof.
  destruct resp as [resp|]; [ | destruct st; reflexivity ].
  unfold log_handshake, handshake_log.
  cbv beta iota zeta delta [bind emit log_Printf].
  rewrite log_headers_next. cbn [events frames_read rev].
  now rewrite <- app_assoc.
Qed.

Lemma foldl_snoc (l acc : list string) :
  foldl (fun (assetIds : list string) key => (assetIds ++ [key])%list) acc l
  = (acc ++ l)%list.
Proof.
  revert acc. induction l as [|x l IH]; intros acc; cbn.
  - now rewrite app_nil_r.
  - rewrite IH. now rewrite <- app_assoc.
Qed.

Section Paths.
Variables (w : Env) (f : storkPriceFeed) (ctx : Context).

Lemma pull_bad_endpoint err :
  url_Parse w (url f) = inr err ->
  run_PullAssetPair w f ctx
  = (Exited 1, trace_start f ++ [EvLogFatal "Error parsing URL:"])%list.
Proof. intros H. pull_unfold. pull_step H. reflexivity. Qed.

Lemma pull_dial_failed u resp err :
  url_Parse w (url f) = inl u ->
  Dial w (URL_String u) (request_header f) = DialErr resp err ->
  run_PullAssetPair w f ctx
  = (Exited 1,
     trace_start f ++ [EvDial (URL_String u) (request_header f) true]
       ++ handshake_log resp ++ [EvLogFatal "Error connecting to WebSocket:"])%list.
Proof.
  intros H1 H2. pull_unfold. pull_step H1. pull_step H2.
  rewrite log_handshake_next. pull_unfold.
  cbn [rev]. rewrite rev_app_distr, rev_involutive.
  rewrite <- app_assoc. reflexivity.
Qed.


Variables (u : URL) (resp : Response).
Hypothesis Hparse : url_Parse w (url f) = inl u.
Hypothesis Hdial : Dial w (URL_String u) (request_header f) = DialOk resp.

Lemma pull_write_failed err :
  WriteMessage w (message f) = Some err ->
  run_PullAssetPair w f ctx
  = (Exited 1, trace_session f u ++ [EvLogFatal "Error writing message:"])%list.
Proof.
  intros H. pull_unfold. pull_step Hparse. pull_step Hdial. pull_step H. reflexivity.
Qed.

Hypothesis Hwrite : WriteMessage w (message f) = None.

Lemma pull_first_read_failed err :
  ReadMessage w 0 = ReadErr err ->
  run_PullAssetPair w f ctx
  = (Returned (AssetPair_zero, None),
     trace_session f u ++
       [EvReadMessage; EvLog "Error reading message:"; EvClose; EvTimingDone])%list.
Proof.
  intros H. pull_unfold. pull_step Hparse. pull_step Hdial. pull_step Hwrite.
  pull_step H. reflexivity.
Qed.

Lemma pull_first_read_blocks :
  ReadMessage w 0 = NoFrame ->
  run_PullAssetPair w f ctx = (Blocked, trace_session f u ++ [EvReadMessage])%list.
Proof.
  intros H. pull_unfold. pull_step Hparse. pull_step Hdial. pull_step Hwrite.
  pull_step H. reflexivity.
Qed.

Variable first : string.
Hypothesis Hfirst : ReadMessage w 0 = Frame first.

Lemma pull_second_read_failed err :
  ReadMessage w 1 = ReadErr err ->
  run_PullAssetPair w f ctx
  = (Returned (AssetPair_zero, None),
     trace_session f u ++
       [EvReadMessage; EvReadMessage; EvLog "Error reading message:";
        EvClose; EvTimingDone])%list.
Proof.
  intros H. pull_unfold. pull_step Hparse. pull_step Hdial. pull_step Hwrite.
  pull_step Hfirst. pull_step H. reflexivity.
Qed.

Lemma pull_second_read_blocks :
  ReadMessage w 1 = NoFrame ->
  run_PullAssetPair w f ctx
  = (Blocked, trace_session f u ++ [EvReadMessage; EvReadMessage])%list.
Proof.
  intros H. pull_unfold. pull_step Hparse. pull_step Hdial. pull_step Hwrite.
  pull_step Hfirst. pull_step H. reflexivity.
Qed.

Variable msgNeed : string.
Hypothesis Hsecond : ReadMessage w 1 = Frame msgNeed.

Lemma pull_decode_failed err :
  json_Unmarshal w msgNeed = inr err ->
  run_PullAssetPair w f ctx = (Returned (AssetPair_zero, None), trace_decoded f u).
Proof.
  intros H. pull_unfold. pull_step Hparse. pull_step Hdial. pull_step Hwrite.
  pull_step Hfirst. pull_step Hsecond. pull_step H. reflexivity.
Qed.

Variable msgResp : messageResponse.
Hypothesis Hdecode : json_Unmarshal w msgNeed = inl msgResp.

Lemma pull_no_asset :
  range_keys w (Data_ msgResp) = [] ->
  run_PullAssetPair w f ctx
  = (Panicked "index out of range [0] with length 0", trace_decoded f u).
Proof.
  intros H. pull_unfold. pull_step Hparse. pull_step Hdial. pull_step Hwrite.
  pull_step Hfirst. pull_step Hsecond. pull_step Hdecode. rewrite H. reflexivity.
Qed.

Lemma pull_first_asset k ks :
  range_keys w (Data_ msgResp) = k :: ks ->
  run_PullAssetPair w f ctx
  = (Returned (ConvertDataToAssetPair (default Data_zero (Data_ msgResp !! k)) k, None),
     trace_decoded f u).
Proof.
  intros H. pull_unfold. pull_step Hparse. pull_step Hdial. pull_step Hwrite.
  pull_step Hfirst. pull_step Hsecond. pull_step Hdecode.
  rewrite foldl_snoc, H. reflexivity.
Qed.

End Paths.

(** Every pull takes one of the paths above: the case analysis that
    decides which, with the outcome of the pull rewritten to that of
    its path. *)
Ltac pull_cases w f ctx :=
  let u := fresh "u" in
  let resp := fresh "resp" in
  let first := fresh "first" in
  let msgNeed := fresh "msgNeed" in
  let msgResp := fresh "msgResp" in
  let k := fresh "k" in
  let ks := fresh "ks" in
  let e := fresh "e" in
  let Hparse := fresh "Hparse" in
  let Hdial := fresh "Hdial" in
  let Hwrite := fresh "Hwrite" in
  let Hfirst := fresh "Hfirst" in
  let Hsecond := fresh "Hsecond" in
  let Hdecode := fresh "Hdecode" in
  let Hkeys := fresh "Hkeys" in
  destruct (url_Parse w (url f)) as [u|e] eqn:Hparse;
  [ destruct (Dial w (URL_String u) (request_header f)) as [resp|resp e] eqn:Hdial;
    [ destruct (WriteMessage w (message f)) as [e|] eqn:Hwrite;
      [ rewrite (pull_write_failed w f ctx u resp Hparse Hdial e Hwrite) in *
      | destruct (ReadMessage w 0) as [first|e|] eqn:Hfirst;
        [ destruct (ReadMessage w 1) as [msgNeed|e|] eqn:Hsecond;
          [ destruct (json_Unmarshal w msgNeed) as [msgResp|e] eqn:Hdecode;
            [ destruct (range_keys w (Data_ msgResp)) as [|k ks] eqn:Hkeys;
              [ rewrite (pull_no_asset w f ctx u resp Hparse Hdial Hwrite first Hfirst
                           msgNeed Hsecond msgResp Hdecode Hkeys) in *
              | rewrite (pull_first_asset w f ctx u resp Hparse Hdial Hwrite first Hfirst
                           msgNeed Hsecond msgResp Hdecode k ks Hkeys) in * ]
            | rewrite (pull_decode_failed w f ctx u resp Hparse Hdial Hwrite first Hfirst
                         msgNeed Hsecond e Hdecode) in * ]
          | rewrite (pull_second_read_failed w f ctx u resp Hparse Hdial Hwrite first Hfirst
                       e Hsecond) in *
          | rewrite (pull_second_read_blocks w f ctx u resp Hparse Hdial Hwrite first Hfirst
                       Hsecond) in * ]
        | rewrite (pull_first_read_failed w f ctx u resp Hparse Hdial Hwrite e Hfirst) in *
        | rewrite (pull_first_read_blocks w f ctx u resp Hparse Hdial Hwrite Hfirst) in * ] ]
    | rewrite (pull_dial_failed w f ctx u resp e Hparse Hdial) in * ]
  | rewrite (pull_bad_endpoint w f ctx e Hparse) in * ].

(** No path of [PullAssetPair] returns an error. *)
Lemma PullAssetPair_error_nil (w : Env) (f : storkPriceFeed) (ctx : Context)
    (assetPairs : AssetPair) (err : option error) :
  fst (run_PullAssetPair w f ctx) = Returned (assetPairs, err) -> err = None.
Proof.
  intros H. pull_cases w f ctx; cbn [fst] in H; congruence.
Qed.

(** ** Failures of a pull *)

(** C1, as the claim states it, fails: a read error on the second
    frame is a failure of the pull, and the pull returns the zero-value
    asset pair with a nil error; a malformed endpoint is a failure of
    the pull, and the pull ends the process. *)
Lemma PullAssetPair_failure_counterexample :
  (pull_fails (session [Frame "ack"; ReadErr (errorString "unexpected EOF")] range_forward)
     feed_btc ReadFailure /\
   fst (run_PullAssetPair
          (session [Frame "ack"; ReadErr (errorString "unexpected EOF")] range_forward)
          feed_btc context_Background)
   = Returned (AssetPair_zero, None)) /\
  (pull_fails session_bad_endpoint feed_btc MalformedEndpoint /\
   fst (run_PullAssetPair session_bad_endpoint feed_btc context_Background) = Exited 1).
Proof.
  split; split.
  - apply (fails_second_read _ _ "ack" (errorString "unexpected EOF")).
    + split; [ | reflexivity ]. eexists _, _. split; reflexivity.
    + reflexivity.
    + reflexivity.
  - reflexivity.
  - apply (fails_endpoint _ _ (errorString "missing protocol scheme")). reflexivity.
  - reflexivity.
Qed.

(** C1, amended.  For every input on which a pull fails, no error is
    returned: on a malformed endpoint, on a dial or handshake failure
    and on a write failure [PullAssetPair] ends the process through the
    fatal logger (exit status 1); on a read failure and on a decode
    failure it returns the zero-value asset pair together with a nil
    error. *)
Theorem PullAssetPair_failure_outcome
    (w : Env) (f : storkPriceFeed) (ctx : Context) (c : FailureCategory) :
  pull_fails w f c ->
  fst (run_PullAssetPair w f ctx)
  = match c with
    | MalformedEndpoint | DialFailure | WriteFailure => Exited 1
    | ReadFailure | DecodeFailure => Returned (AssetPair_zero, None)
    end.
Proof.
  intros Hfail.
  destruct Hfail as
    [ err Hparse
    | u resp err Hparse Hdial
    | err (u & resp & Hparse & Hdial) Hwrite
    | err [(u & resp & Hparse & Hdial) Hwrite] Hfirst
    | first err [(u & resp & Hparse & Hdial) Hwrite] Hfirst Hsecond
    | msgNeed err [[(u & resp & Hparse & Hdial) Hwrite] (first & Hfirst & Hsecond)] Hdecode ].
  - now rewrite (pull_bad_endpoint w f ctx err Hparse).
  - now rewrite (pull_dial_failed w f ctx u resp err Hparse Hdial).
  - now rewrite (pull_write_failed w f ctx u resp Hparse Hdial err Hwrite).
  - now rewrite (pull_first_read_failed w f ctx u resp Hparse Hdial Hwrite err Hfirst).
  - now rewrite (pull_second_read_failed w f ctx u resp Hparse Hdial Hwrite
                   first Hfirst err Hsecond).
  - now rewrite (pull_decode_failed w f ctx u resp Hparse Hdial Hwrite
                   first Hfirst msgNeed Hsecond err Hdecode).
Qed.

Lemma PullAssetPair_failure_outcome_witness :
  fst (run_PullAssetPair session_refused feed_btc context_Background) = Exited 1.
Proof.
  apply (PullAssetPair_failure_outcome session_refused feed_btc context_Background
           DialFailure).
  apply (fails_dial _ _ (mkURL (url feed_btc))
           (Some (mkResponse "401 Unauthorized" 401 [("Server", ["stork"])]))
           (errorString "websocket: bad handshake")); reflexivity.
Defined.

(** ** The empty envelope *)

Lemma range_keys_empty (w : Env) (m : gmap string Data) :
  range_valid w -> m = ∅ -> range_keys w m = [].
Proof.
  intros Hvalid ->. specialize (Hvalid ∅).
  rewrite map_to_list_empty in Hvalid. cbn in Hvalid.
  now apply Permutation_nil_r in Hvalid.
Qed.

(** Whenever the second frame decodes to an envelope without assets,
    the pull panics on the index into the empty key list. *)
Lemma PullAssetPair_no_asset_panics
    (w : Env) (f : storkPriceFeed) (ctx : Context) (msgResp : messageResponse) :
  range_valid w ->
  decodes w f msgResp ->
  Data_ msgResp = ∅ ->
  fst (run_PullAssetPair w f ctx) = Panicked "index out of range [0] with length 0".
Proof.
  intros Hvalid (msgNeed & [[(u & resp & Hparse & Hdial) Hwrite]
                             (first & Hfirst & Hsecond)] & Hdecode) Hempty.
  now rewrite (pull_no_asset w f ctx u resp Hparse Hdial Hwrite first Hfirst
                 msgNeed Hsecond msgResp Hdecode (range_keys_empty w _ Hvalid Hempty)).
Qed.

Lemma range_forward_valid (frames : list ReadResult) :
  range_valid (session frames range_forward).
Proof. intros m. reflexivity. Qed.

Lemma range_backward_valid (frames : list ReadResult) :
  range_valid (session frames range_backward).
Proof. intros m. cbn. unfold range_backward. symmetry. apply Permutation_rev. Qed.

(** C2, at the failing input.  The session answers with an
    acknowledgement and then the frame [{}]; that frame decodes to an
    envelope with an empty data mapping, and the pull panics: it does
    not return an error. *)
Theorem PullAssetPair_empty_envelope_panics :
  decodes (session [Frame "ack"; Frame "{}"] range_forward) feed_btc envelope_empty /\
  Data_ envelope_empty = ∅ /\
  run_PullAssetPair (session [Frame "ack"; Frame "{}"] range_forward)
    feed_btc context_Background
  = (Panicked "index out of range [0] with length 0",
     trace_decoded feed_btc (mkURL (url feed_btc))).
Proof.
  split; [ | split; reflexivity ].
  exists "{}". split; [ | reflexivity ].
  split; [ split; [ eexists _, _; split; reflexivity | reflexivity ] | ].
  exists "ack". split; reflexivity.
Qed.

(** ** Which asset is selected *)

(** The pull converts the asset under the first key that the range
    over the mapping yields. *)
Lemma PullAssetPair_first_key
    (w : Env) (f : storkPriceFeed) (ctx : Context) (msgResp : messageResponse)
    (k : string) (ks : list string) :
  decodes w f msgResp ->
  range_keys w (Data_ msgResp) = k :: ks ->
  fst (run_PullAssetPair w f ctx)
  = Returned (ConvertDataToAssetPair (default Data_zero (Data_ msgResp !! k)) k, None).
Proof.
  intros (msgNeed & [[(u & resp & Hparse & Hdial) Hwrite]
                      (first & Hfirst & Hsecond)] & Hdecode) Hkeys.
  now rewrite (pull_first_asset w f ctx u resp Hparse Hdial Hwrite first Hfirst
                 msgNeed Hsecond msgResp Hdecode k ks Hkeys).
Qed.

(** C5, as the claim states it, fails: two runs on the same decoded
    envelope with the assets BTCUSD and ETHUSD, which differ only in the
    order in which the range visits the keys (both orders visit every
    key once), select different records; the feed's ticker is BTCUSD,
    and one run selects ETHUSD. *)
Lemma PullAssetPair_selection_counterexample :
  range_valid (session [Frame "ack"; Frame frame_two_assets] range_forward) /\
  range_valid (session [Frame "ack"; Frame frame_two_assets] range_backward) /\
  decodes (session [Frame "ack"; Frame frame_two_assets] range_forward)
          feed_btc envelope_two /\
  decodes (session [Frame "ack"; Frame frame_two_assets] range_backward)
          feed_btc envelope_two /\
  storkPriceFeed_Symbol feed_btc = "BTCUSD" /\
  fst (run_PullAssetPair (session [Frame "ack"; Frame frame_two_assets] range_forward)
         feed_btc context_Background)
  = Returned (ConvertDataToAssetPair data_eth "ETHUSD", None) /\
  fst (run_PullAssetPair (session [Frame "ack"; Frame frame_two_assets] range_backward)
         feed_btc context_Background)
  = Returned (ConvertDataToAssetPair data_btc "BTCUSD", None) /\
  ConvertDataToAssetPair data_eth "ETHUSD" <> ConvertDataToAssetPair data_btc "BTCUSD".
Proof.
  assert (forall order,
            decodes (session [Frame "ack"; Frame frame_two_assets] order)
                    feed_btc envelope_two) as Hdec.
  { intros order. exists frame_two_assets. split; [ | reflexivity ].
    split; [ split; [ eexists _, _; split; reflexivity | reflexivity ] | ].
    exists "ack". split; reflexivity. }
  split; [ apply range_forward_valid | ].
  split; [ apply range_backward_valid | ].
  split; [ apply Hdec | ]. split; [ apply Hdec | ].
  split; [ reflexivity | ].
  split; [ vm_compute; reflexivity | ].
  split; [ vm_compute; reflexivity | ].
  vm_compute. discriminate.
Qed.

Lemma range_keys_singleton (w : Env) (m : gmap string Data) (k : string) (d : Data) :
  range_valid w -> m = {[ k := d ]} -> range_keys w m = [k].
Proof.
  intros Hvalid ->. specialize (Hvalid {[ k := d ]}).
  rewrite map_to_list_singleton in Hvalid. cbn in Hvalid.
  now apply Permutation_singleton_r in Hvalid.
Qed.

Lemma range_keys_head (w : Env) (m : gmap string Data) (k : string) (ks : list string) :
  range_valid w -> range_keys w m = k :: ks -> is_Some (m !! k).
Proof.
  intros Hvalid Hkeys. specialize (Hvalid m). rewrite Hkeys in Hvalid.
  assert (k ∈ (map_to_list m).*1) as Hin
    by (rewrite <- Hvalid; apply list_elem_of_here).
  apply list_elem_of_fmap in Hin as ([k' d] & -> & Hin).
  apply elem_of_map_to_list in Hin. cbn. eauto.
Qed.

(** C5, amended.  The asset converted is the one under the first key
    that the iteration over the mapping yields: when the range yields
    [k] first, the pull returns the conversion of the record that the
    envelope holds under [k], with [k] for identifier.  The configured
    ticker plays no part: two runs on the same decoded envelope, by
    feeds with any tickers, select the same record whenever their
    ranges yield the same first key.  So the selection is deterministic
    when the mapping holds exactly one asset: any two runs on the same
    decoded envelope then select that asset's record, whatever the
    iteration order. *)
Theorem PullAssetPair_selection_first_key
    (w1 w2 : Env) (f1 f2 : storkPriceFeed) (ctx1 ctx2 : Context)
    (msgResp : messageResponse) :
  range_valid w1 -> range_valid w2 ->
  decodes w1 f1 msgResp -> decodes w2 f2 msgResp ->
  (forall (k : string) (ks : list string),
     range_keys w1 (Data_ msgResp) = k :: ks ->
     exists d,
       Data_ msgResp !! k = Some d /\
       fst (run_PullAssetPair w1 f1 ctx1)
       = Returned (ConvertDataToAssetPair d k, None)) /\
  (forall (k : string) (ks1 ks2 : list string),
     range_keys w1 (Data_ msgResp) = k :: ks1 ->
     range_keys w2 (Data_ msgResp) = k :: ks2 ->
     fst (run_PullAssetPair w2 f2 ctx2) = fst (run_PullAssetPair w1 f1 ctx1)) /\
  (forall (k : string) (d : Data),
     Data_ msgResp = {[ k := d ]} ->
     fst (run_PullAssetPair w1 f1 ctx1) = Returned (ConvertDataToAssetPair d k, None) /\
     fst (run_PullAssetPair w2 f2 ctx2) = fst (run_PullAssetPair w1 f1 ctx1)).
Proof.
  intros Hv1 Hv2 Hd1 Hd2. split; [ | split ].
  - intros k ks Hkeys.
    destruct (range_keys_head w1 (Data_ msgResp) k ks Hv1 Hkeys) as [d Hd].
    exists d. split; [ exact Hd | ].
    rewrite (PullAssetPair_first_key w1 f1 ctx1 msgResp k ks Hd1 Hkeys), Hd.
    reflexivity.
  - intros k ks1 ks2 Hk1 Hk2.
    rewrite (PullAssetPair_first_key w1 f1 ctx1 msgResp k ks1 Hd1 Hk1).
    rewrite (PullAssetPair_first_key w2 f2 ctx2 msgResp k ks2 Hd2 Hk2).
    reflexivity.
  - intros k d Hone.
    assert (default Data_zero (Data_ msgResp !! k) = d) as Hlook
      by (rewrite Hone, lookup_singleton_eq; reflexivity).
    rewrite (PullAssetPair_first_key w1 f1 ctx1 msgResp k [] Hd1
               (range_keys_singleton w1 _ k d Hv1 Hone)).
    rewrite (PullAssetPair_first_key w2 f2 ctx2 msgResp k [] Hd2
               (range_keys_singleton w2 _ k d Hv2 Hone)).
    rewrite Hlook. split; reflexivity.
Qed.

Lemma PullAssetPair_selection_first_key_witness :
  (forall (k : string) (ks : list string),
     range_keys (session [Frame "ack"; Frame frame_two_assets] range_backward)
       (Data_ envelope_two) = k :: ks ->
     exists d,
       Data_ envelope_two !! k = Some d /\
       fst (run_PullAssetPair
              (session [Frame "ack"; Frame frame_two_assets] range_backward)
              feed_btc context_Background)
       = Returned (ConvertDataToAssetPair d k, None)) /\
  (forall (k : string) (ks1 ks2 : list string),
     range_keys (session [Frame "ack"; Frame frame_two_assets] range_backward)
       (Data_ envelope_two) = k :: ks1 ->
     range_keys (session [Frame "late ack"; Frame frame_two_assets] range_backward)
       (Data_ envelope_two) = k :: ks2 ->
     fst (run_PullAssetPair
            (session [Frame "late ack"; Frame frame_two_assets] range_backward)
            (feed_of (cfg_with "" "") (60 * time_Second) OracleType_Stork)
            (mkContext (Some 0%nat)))
     = fst (run_PullAssetPair
              (session [Frame "ack"; Frame frame_two_assets] range_backward)
              feed_btc context_Background)) /\
  (forall (k : string) (d : Data),
     Data_ envelope_two = {[ k := d ]} ->
     fst (run_PullAssetPair
            (session [Frame "ack"; Frame frame_two_assets] range_backward)
            feed_btc context_Background)
     = Returned (ConvertDataToAssetPair d k, None) /\
     fst (run_PullAssetPair
            (session [Frame "late ack"; Frame frame_two_assets] range_backward)
            (feed_of (cfg_with "" "") (60 * time_Second) OracleType_Stork)
            (mkContext (Some 0%nat)))
     = fst (run_PullAssetPair
              (session [Frame "ack"; Frame frame_two_assets] range_backward)
              feed_btc context_Background)).
Proof.
  apply (PullAssetPair_selection_first_key
           (session [Frame "ack"; Frame frame_two_assets] range_backward)
           (session [Frame "late ack"; Frame frame_two_assets] range_backward)
           feed_btc (feed_of (cfg_with "" "") (60 * time_Second) OracleType_Stork)
           context_Background (mkContext (Some 0%nat)) envelope_two).
  - apply range_backward_valid.
  - apply range_backward_valid.
  - exists frame_two_assets. split; [ | reflexivity ].
    split; [ split; [ eexists _, _; split; reflexivity | reflexivity ] | ].
    exists "ack". split; reflexivity.
  - exists frame_two_assets. split; [ | reflexivity ].
    split; [ split; [ eexists _, _; split; reflexivity | reflexivity ] | ].
    exists "late ack". split; reflexivity.
Defined.

(** ** Cancellation and the release of the connection *)

Lemma closes_app (a b : list Event) : closes (a ++ b) = (closes a + closes b)%nat.
Proof. unfold closes. now rewrite List.filter_app, length_app. Qed.

Lemma closes_handshake_log (resp : option Response) : closes (handshake_log resp) = 0%nat.
Proof.
  destruct resp as [resp|]; [ | reflexivity ].
  unfold closes, handshake_log. cbn.
  induction (resp_Header resp) as [|kv hs IH]; [ reflexivity | exact IH ].
Qed.

(** A pull that comes back has closed the connection once; a pull that
    ends the process or stays blocked has not closed it. *)
Lemma PullAssetPair_closes (w : Env) (f : storkPriceFeed) (ctx : Context) :
  (came_back (fst (run_PullAssetPair w f ctx)) ->
   closes (snd (run_PullAssetPair w f ctx)) = 1%nat) /\
  (~ came_back (fst (run_PullAssetPair w f ctx)) ->
   closes (snd (run_PullAssetPair w f ctx)) = 0%nat).
Proof.
  pull_cases w f ctx; cbn [fst snd came_back]; split; intros H;
    try (exfalso; exact H); try (exfalso; apply H; exact I);
    try reflexivity.
  rewrite !closes_app, closes_handshake_log. reflexivity.
Qed.

(** The context is not read: the pull is the same for every context. *)
Lemma PullAssetPair_context (w : Env) (f : storkPriceFeed) (ctx ctx' : Context) :
  run_PullAssetPair w f ctx = run_PullAssetPair w f ctx'.
Proof. reflexivity. Qed.

(** C9, as the claim states it, fails: with a cancellation signal that
    fires before the dial, a session that delivers both frames returns
    its asset pair with a nil error, and a session whose second frame
    never arrives stays blocked with the connection open. *)
Lemma PullAssetPair_cancellation_counterexample :
  Context_Err (mkContext (Some 0%nat)) = Some context_Canceled /\
  run_PullAssetPair (session [Frame "ack"; Frame frame_one_asset] range_forward)
    feed_btc (mkContext (Some 0%nat))
  = (Returned (ConvertDataToAssetPair data_btc "BTCUSD", None),
     trace_decoded feed_btc (mkURL (url feed_btc))) /\
  run_PullAssetPair (session [Frame "ack"] range_forward) feed_btc (mkContext (Some 0%nat))
  = (Blocked,
     trace_session feed_btc (mkURL (url feed_btc)) ++ [EvReadMessage; EvReadMessage])%list /\
  closes (trace_session feed_btc (mkURL (url feed_btc)) ++ [EvReadMessage; EvReadMessage])
  = 0%nat.
Proof.
  split; [ reflexivity | ].
  split; [ vm_compute; reflexivity | ].
  split; [ vm_compute; reflexivity | reflexivity ].
Qed.

(** C9, amended.  For every pull invoked with a cancellation signal
    that fires before the second inbound frame arrives, [PullAssetPair]
    does not abort: it runs exactly as it does without the signal and
    never returns a cancellation error (nor any other); when the call
    comes back, by a return or by a panic, the connection has been
    closed exactly once. *)
Theorem PullAssetPair_ignores_cancellation
    (w : Env) (f : storkPriceFeed) (ctx : Context) (step : nat) :
  cancelled_before ctx = Some step ->
  (step <= 3)%nat ->
  run_PullAssetPair w f ctx = run_PullAssetPair w f context_Background /\
  (forall assetPairs err,
     fst (run_PullAssetPair w f ctx) = Returned (assetPairs, err) -> err = None) /\
  (came_back (fst (run_PullAssetPair w f ctx)) ->
   closes (snd (run_PullAssetPair w f ctx)) = 1%nat).
Proof.
  intros _ _. split; [ apply PullAssetPair_context | ].
  split; [ intros assetPairs err; apply PullAssetPair_error_nil | ].
  apply PullAssetPair_closes.
Qed.

Lemma PullAssetPair_ignores_cancellation_witness :
  run_PullAssetPair (session [Frame "ack"; Frame frame_one_asset] range_forward)
    feed_btc (mkContext (Some 3%nat))
  = run_PullAssetPair (session [Frame "ack"; Frame frame_one_asset] range_forward)
      feed_btc context_Background /\
  (forall assetPairs err,
     fst (run_PullAssetPair (session [Frame "ack"; Frame frame_one_asset] range_forward)
            feed_btc (mkContext (Some 3%nat))) = Returned (assetPairs, err) ->
     err = None) /\
  (came_back
     (fst (run_PullAssetPair (session [Frame "ack"; Frame frame_one_asset] range_forward)
             feed_btc (mkContext (Some 3%nat)))) ->
   closes
     (snd (run_PullAssetPair (session [Frame "ack"; Frame frame_one_asset] range_forward)
             feed_btc (mkContext (Some 3%nat)))) = 1%nat).
Proof.
  apply (PullAssetPair_ignores_cancellation
           (session [Frame "ack"; Frame frame_one_asset] range_forward)
           feed_btc (mkContext (Some 3%nat)) 3%nat).
  - reflexivity.
  - apply Nat.le_refl.
Defined.

(** ** The single price *)

(** C10.  For every context, every feed and every environment,
    [PullPrice] returns the zero decimal price with a nil error and has
    no effect at all (no event, so no network activity); the result is
    the same for any two feeds, contexts and environments. *)
Theorem PullPrice_zero
    (w w' : Env) (f f' : storkPriceFeed) (ctx ctx' : Context) :
  run_PullPrice w f ctx = (Returned (zeroPrice, None), []) /\
  zeroPrice = mkDecimal 0 0 /\
  run_PullPrice w f ctx = run_PullPrice w' f' ctx'.
Proof.
  unfold run_PullPrice, PullPrice, call, return_. cbn.
  split; [ reflexivity | ]. split; reflexivity.
Qed.

(** ** More on the signature bytes *)

Lemma hex_Decode_encoded_byte (v : byte) (rest : string) :
  hex_Decode (String (hex_digit (N.shiftr (Byte.to_N v) 4))
                (String (hex_digit (N.land (Byte.to_N v) 15)) rest))
  = (v :: fst (hex_Decode rest), snd (hex_Decode rest)).
Proof.
  destruct v; cbn [hex_Decode]; destruct (hex_Decode rest); reflexivity.
Qed.

Lemma hex_Decode_encoded (src : list byte) (rest : string) :
  hex_Decode (hex_EncodeToString src +:+ rest)
  = ((src ++ fst (hex_Decode rest))%list, snd (hex_Decode rest)).
Proof.
  induction src as [|v src IH].
  - change (hex_EncodeToString [] +:+ rest) with rest.
    now destruct (hex_Decode rest).
  - change (hex_EncodeToString (v :: src) +:+ rest)
      with (String (hex_digit (N.shiftr (Byte.to_N v) 4))
              (String (hex_digit (N.land (Byte.to_N v) 15))
                 (hex_EncodeToString src +:+ rest))).
    rewrite hex_Decode_encoded_byte, IH. reflexivity.
Qed.

Lemma spec_strip_encoded (prefixed : bool) (src : list byte) :
  spec_strip_0x (with_0x prefixed (hex_EncodeToString src)) = hex_EncodeToString src.
Proof.
  destruct prefixed; [ reflexivity | ].
  destruct src as [|v src]; [ reflexivity | ].
  destruct v; reflexivity.
Qed.

(** X1.  Round trip.  For all byte sequences [r], [s] and [v], the
    signature whose components are their hexadecimal encodings, each
    with or without the 0x prefix, is converted to the bytes of [r],
    [s] and [v] in that order; so 32, 32 and 1 bytes give the 65 bytes
    of a recoverable signature. *)
Theorem ConvertSignedPrice_encoded_round_trip
    (signeds : SignedPrice) (r s v : list byte) (pr ps pv : bool) :
  ts_Signature (TimestampedSignature_ signeds)
    = mkSignature (with_0x pr (hex_EncodeToString r))
                  (with_0x ps (hex_EncodeToString s))
                  (with_0x pv (hex_EncodeToString v)) ->
  soap_Signature (ConvertSignedPrice signeds) = (r ++ s ++ v)%list /\
  length (soap_Signature (ConvertSignedPrice signeds))
    = (length r + length s + length v)%nat.
Proof.
  intros Hsig.
  assert (soap_Signature (ConvertSignedPrice signeds) = (r ++ s ++ v)%list) as H.
  { unfold ConvertSignedPrice, common_Hex2Bytes, hex_DecodeString.
    cbn [soap_Signature]. rewrite Hsig, CombineSignatureToString_spec.
    unfold spec_stripped. cbn [sig_R sig_S sig_V].
    rewrite !spec_strip_encoded.
    rewrite hex_Decode_encoded, hex_Decode_encoded.
    rewrite <- (append_empty_r (hex_EncodeToString v)), hex_Decode_encoded.
    cbn. now rewrite app_nil_r. }
  split; [ exact H | ].
  rewrite H, !length_app. lia.
Qed.

Lemma ConvertSignedPrice_encoded_round_trip_witness :
  soap_Signature
    (ConvertSignedPrice
       (signed_with (mkSignature (with_0x true (hex_EncodeToString [xab; x10]))
                                 (with_0x false (hex_EncodeToString [xcd]))
                                 (with_0x true (hex_EncodeToString [x01])))))
  = ([xab; x10] ++ [xcd] ++ [x01])%list /\
  length
    (soap_Signature
       (ConvertSignedPrice
          (signed_with (mkSignature (with_0x true (hex_EncodeToString [xab; x10]))
                                    (with_0x false (hex_EncodeToString [xcd]))
                                    (with_0x true (hex_EncodeToString [x01]))))))
  = (length [xab; x10] + length [xcd] + length [x01])%nat.
Proof.
  apply (ConvertSignedPrice_encoded_round_trip
           (signed_with (mkSignature (with_0x true (hex_EncodeToString [xab; x10]))
                                     (with_0x false (hex_EncodeToString [xcd]))
                                     (with_0x true (hex_EncodeToString [x01]))))
           [xab; x10] [xcd] [x01] true false true).
  reflexivity.
Defined.

Lemma spec_hex_decode_length (p : string) (bs : list byte) :
  spec_hex_decode p = Some bs -> String.length p = (2 * length bs)%nat.
Proof.
  revert bs. induction p as [|c|a b rest IH] using string_pair_ind; intros bs H.
  - injection H as <-. reflexivity.
  - discriminate H.
  - cbn [spec_hex_decode] in H.
    destruct (spec_hex_digit a); [ | discriminate H ].
    destruct (spec_hex_digit b); [ | discriminate H ].
    destruct (spec_hex_decode rest) as [bs'|]; [ | discriminate H ].
    injection H as <-. cbn. rewrite (IH bs' eq_refl). lia.
Qed.

(** X2.  Bound.  The signature bytes are never more than half the
    digits of the stripped components together, and they are exactly
    half of them if and only if the hex decoder reported no error: a
    caller can tell a truncated signature by its length. *)
Theorem ConvertSignedPrice_signature_length (signeds : SignedPrice) :
  (2 * length (soap_Signature (ConvertSignedPrice signeds))
   <= String.length
        (CombineSignatureToString (ts_Signature (TimestampedSignature_ signeds))))%nat /\
  ((2 * length (soap_Signature (ConvertSignedPrice signeds)))%nat
   = String.length
       (CombineSignatureToString (ts_Signature (TimestampedSignature_ signeds)))
   <->
   snd (hex_DecodeString
          (CombineSignatureToString (ts_Signature (TimestampedSignature_ signeds))))
   = None).
Proof.
  unfold ConvertSignedPrice, common_Hex2Bytes, hex_DecodeString. cbn [soap_Signature].
  set (str := CombineSignatureToString (ts_Signature (TimestampedSignature_ signeds))).
  destruct (hex_Decode_prefix str) as (p & rest & Heq & Hp & Hrest).
  apply spec_hex_decode_length in Hp.
  assert (String.length str = (String.length p + String.length rest)%nat) as Hlen
    by (rewrite Heq; apply length_append).
  destruct Hrest as [[Herr ->] | ([err Herr] & Hne & _)].
  - cbn in Hlen. split; [ lia | ]. split; [ intros _; exact Herr | intros _; lia ].
  - assert (0 < String.length rest)%nat
      by (destruct rest; [ now contradict Hne | cbn; lia ]).
    split; [ lia | ]. split; [ intros; lia | ].
    intros Hnone. rewrite Hnone in Herr. discriminate Herr.
Qed.

(** X3.  Edge.  Only one leading 0x, in lower case, is stripped from a
    component.  A signature whose R starts with 0X in upper case, or
    with 0x twice, is converted to no signature bytes at all, whatever
    the rest of it. *)
Theorem ConvertSignedPrice_unstripped_prefix
    (signeds : SignedPrice) (digits : string) :
  sig_R (ts_Signature (TimestampedSignature_ signeds)) = "0X" +:+ digits \/
  sig_R (ts_Signature (TimestampedSignature_ signeds)) = "0x0x" +:+ digits ->
  soap_Signature (ConvertSignedPrice signeds) = [].
Proof.
  intros H.
  unfold ConvertSignedPrice, common_Hex2Bytes, hex_DecodeString. cbn [soap_Signature].
  rewrite CombineSignatureToString_spec. unfold spec_stripped.
  destruct H as [-> | ->]; reflexivity.
Qed.

Lemma ConvertSignedPrice_unstripped_prefix_witness :
  soap_Signature (ConvertSignedPrice (signed_with (mkSignature "0XAB" "CD" "01"))) = [].
Proof.
  apply (ConvertSignedPrice_unstripped_prefix
           (signed_with (mkSignature "0XAB" "CD" "01")) "AB").
  left. reflexivity.
Defined.

(** ** More on the construction of the feed *)

Lemma wrap64_range (x : Z) : 0 <= wrap64 x < 2 ^ 64.
Proof. unfold wrap64. apply Z.mod_pos_bound. reflexivity. Qed.

Lemma parse_groups_range (fuel : nat) (d : Z) (s : string) (r : Z) :
  0 <= d <= 2 ^ 63 ->
  parse_groups fuel d s = inl r ->
  0 <= r <= 2 ^ 63.
Proof.
  revert d s. induction fuel as [|fuel IH]; intros d s Hd H.
  - destruct s; [ injection H as <-; exact Hd | discriminate H ].
  - destruct s as [|c s]; [ injection H as <-; exact Hd | ].
    cbn [parse_groups] in H.
    destruct (parse_group (String c s)) as [[v rest]|e]; [ | discriminate H ].
    destruct (2 ^ 63 <? wrap64 (d + v)) eqn:Hcmp; [ discriminate H | ].
    apply Z.ltb_ge in Hcmp.
    apply (IH (wrap64 (d + v)) rest); [ | exact H ].
    pose proof (wrap64_range (d + v)). lia.
Qed.

(** A parsed duration fits [int64]. *)
Lemma time_ParseDuration_range (s : string) (d : Z) :
  time_ParseDuration s = (d, None) -> - 2 ^ 63 <= d <= 2 ^ 63 - 1.
Proof.
  unfold time_ParseDuration.
  destruct (match s with
            | EmptyString => (false, s)
            | String c s' =>
                if (N_of_ascii c =? 45)%N then (true, s')
                else if (N_of_ascii c =? 43)%N then (false, s') else (false, s)
            end) as [neg s0].
  destruct (String.eqb s0 "0"); [ intros H; injection H as <-; lia | ].
  destruct (String.eqb s0 ""); [ discriminate | ].
  destruct (parse_groups (String.length s0) 0 s0) as [r|e] eqn:Hg; [ | discriminate ].
  apply parse_groups_range in Hg; [ | lia ].
  destruct neg; [ intros H; injection H as <-; lia | ].
  destruct (2 ^ 63 - 1 <? r) eqn:Hcmp; [ discriminate | ].
  apply Z.ltb_ge in Hcmp. intros H; injection H as <-. lia.
Qed.

(** The four ways [NewStorkPriceFeed] ends. *)
Lemma NewStorkPriceFeed_cases (cfg : StorkFeedConfig) :
  (exists d t,
     interval_accepted cfg d /\ oracle_type_resolves cfg t /\
     NewStorkPriceFeed cfg = (Some (feed_of cfg d t), None)) \/
  (exists d,
     interval_accepted cfg d /\ OracleType cfg <> "" /\
     OracleType_value !! OracleType cfg = None /\
     NewStorkPriceFeed cfg
     = (None, Some (errorString ("oracle type does not exist: " +:+ OracleType cfg)))) \/
  (exists d e,
     PullInterval cfg <> "" /\ time_ParseDuration (PullInterval cfg) = (d, Some e) /\
     NewStorkPriceFeed cfg
     = (None, Some (withMessage e ("failed to parse pull interval: " +:+ PullInterval cfg
                                     +:+ " (expected format: 60s)")))) \/
  (exists d,
     PullInterval cfg <> "" /\ time_ParseDuration (PullInterval cfg) = (d, None) /\
     d < time_Second /\ NewStorkPriceFeed cfg = (None, None)).
Proof.
  assert (forall d, interval_accepted cfg d ->
            (exists d t,
               interval_accepted cfg d /\ oracle_type_resolves cfg t /\
               NewStorkPriceFeed cfg = (Some (feed_of cfg d t), None)) \/
            (exists d,
               interval_accepted cfg d /\ OracleType cfg <> "" /\
               OracleType_value !! OracleType cfg = None /\
               NewStorkPriceFeed cfg
               = (None, Some (errorString ("oracle type does not exist: "
                                             +:+ OracleType cfg))))) as Hacc.
  { intros d Hd. rewrite (NewStorkPriceFeed_accepted cfg d Hd).
    destruct (String.eqb (OracleType cfg) "") eqn:Hname.
    - apply String.eqb_eq in Hname. left. exists d, OracleType_PriceFeed.
      split; [ exact Hd | ]. split; [ left; auto | reflexivity ].
    - apply String.eqb_neq in Hname.
      destruct (OracleType_value !! OracleType cfg) as [t|] eqn:Ht.
      + left. exists d, t. split; [ exact Hd | ]. split; [ right; auto | reflexivity ].
      + right. exists d. auto. }
  destruct (String.eqb (PullInterval cfg) "") eqn:Hempty.
  - apply String.eqb_eq in Hempty.
    destruct (Hacc (1 * time_Minute)) as [H|H]; [ left; auto | auto | auto ].
  - apply String.eqb_neq in Hempty.
    destruct (time_ParseDuration (PullInterval cfg)) as [d [e|]] eqn:Hparse.
    + right; right; left. exists d, e. split; [ exact Hempty | ]. split; [ reflexivity | ].
      unfold NewStorkPriceFeed.
      rewrite length_pos_nonempty, (eqb_empty_false _ Hempty), Hparse. reflexivity.
    + destruct (Z_lt_le_dec d time_Second) as [Hshort|Hmin].
      * right; right; right. exists d. split; [ exact Hempty | ].
        split; [ reflexivity | ]. split; [ exact Hshort | ].
        now apply (NewStorkPriceFeed_interval_short cfg d).
      * destruct (Hacc d) as [H|H]; [ right; auto | auto | auto ].
Qed.

(** X4.  Invariant.  Every feed that [NewStorkPriceFeed] returns comes
    with a nil error, has a pull interval of at least one second that
    fits a [time.Duration], reports the ticker and the provider name
    of its configuration, carries its endpoint, credential and
    subscription message unchanged, and holds the classification its
    oracle-type name resolves to. *)
Theorem NewStorkPriceFeed_feed_invariant
    (cfg : StorkFeedConfig) (feed : storkPriceFeed) (err : option error) :
  NewStorkPriceFeed cfg = (Some feed, err) ->
  err = None /\
  time_Second <= storkPriceFeed_Interval feed <= 2 ^ 63 - 1 /\
  storkPriceFeed_Symbol feed = Ticker cfg /\
  storkPriceFeed_ProviderName feed = ProviderName cfg /\
  url feed = Url cfg /\ header feed = Header cfg /\ message feed = Message cfg /\
  svcTags feed = [("provider", ProviderName cfg)] /\
  oracle_type_resolves cfg (oracleType feed).
Proof.
  intros H.
  destruct (NewStorkPriceFeed_cases cfg)
    as [(d & t & Hd & Ht & Heq) | [(d & _ & _ & _ & Heq)
        | [(d & e & _ & _ & Heq) | (d & _ & _ & _ & Heq)]]];
    rewrite Heq in H; try discriminate H.
  injection H as <- <-.
  split; [ reflexivity | ].
  split.
  { cbn. destruct Hd as [[_ ->] | (_ & Hparse & Hmin)].
    - vm_compute. split; discriminate.
    - apply time_ParseDuration_range in Hparse. lia. }
  repeat split. exact Ht.
Qed.

Lemma NewStorkPriceFeed_feed_invariant_witness :
  @None error = None /\
  time_Second
    <= storkPriceFeed_Interval (feed_of (cfg_with "90s" "Stork") (90 * time_Second) OracleType_Stork)
    <= 2 ^ 63 - 1 /\
  storkPriceFeed_Symbol (feed_of (cfg_with "90s" "Stork") (90 * time_Second) OracleType_Stork)
    = Ticker (cfg_with "90s" "Stork") /\
  storkPriceFeed_ProviderName
    (feed_of (cfg_with "90s" "Stork") (90 * time_Second) OracleType_Stork)
    = ProviderName (cfg_with "90s" "Stork") /\
  url (feed_of (cfg_with "90s" "Stork") (90 * time_Second) OracleType_Stork)
    = Url (cfg_with "90s" "Stork") /\
  header (feed_of (cfg_with "90s" "Stork") (90 * time_Second) OracleType_Stork)
    = Header (cfg_with "90s" "Stork") /\
  message (feed_of (cfg_with "90s" "Stork") (90 * time_Second) OracleType_Stork)
    = Message (cfg_with "90s" "Stork") /\
  svcTags (feed_of (cfg_with "90s" "Stork") (90 * time_Second) OracleType_Stork)
    = [("provider", ProviderName (cfg_with "90s" "Stork"))] /\
  oracle_type_resolves (cfg_with "90s" "Stork")
    (oracleType (feed_of (cfg_with "90s" "Stork") (90 * time_Second) OracleType_Stork)).
Proof.
  apply (NewStorkPriceFeed_feed_invariant (cfg_with "90s" "Stork")
           (feed_of (cfg_with "90s" "Stork") (90 * time_Second) OracleType_Stork) None).
  vm_compute. reflexivity.
Defined.

(** X5.  For every configuration whose interval construction accepts
    (an empty string, which stands for sixty seconds, or a string that
    parses to at least one second) and whose oracle type resolves (an
    empty name or a name of the table), construction succeeds with a nil
    error, and the feed reports that interval. *)
Theorem NewStorkPriceFeed_succeeds
    (cfg : StorkFeedConfig) (d : Z) (t : oracletypes_OracleType) :
  interval_accepted cfg d ->
  oracle_type_resolves cfg t ->
  exists feed,
    NewStorkPriceFeed cfg = (Some feed, None) /\
    storkPriceFeed_Interval feed = d /\
    (PullInterval cfg = "" -> storkPriceFeed_Interval feed = 60 * time_Second).
Proof.
  intros Hd Ht. exists (feed_of cfg d t).
  split; [ | split; [ reflexivity | ] ].
  - rewrite (NewStorkPriceFeed_accepted cfg d Hd).
    destruct Ht as [[-> ->] | [Hn Hv]]; [ reflexivity | ].
    now rewrite (eqb_empty_false _ Hn), Hv.
  - intros Hempty. destruct Hd as [[_ ->] | [Hne _]]; [ reflexivity | ].
    now contradict Hne.
Qed.

Lemma NewStorkPriceFeed_succeeds_witness :
  exists feed,
    NewStorkPriceFeed (cfg_with "1h30m" "Pyth") = (Some feed, None) /\
    storkPriceFeed_Interval feed = 90 * time_Minute /\
    (PullInterval (cfg_with "1h30m" "Pyth") = "" ->
     storkPriceFeed_Interval feed = 60 * time_Second).
Proof.
  apply (NewStorkPriceFeed_succeeds (cfg_with "1h30m" "Pyth") (90 * time_Minute) OracleType_Pyth).
  - right. split; [ discriminate | ]. split; [ vm_compute; reflexivity | ].
    vm_compute. discriminate.
  - right. split; [ discriminate | vm_compute; reflexivity ].
Defined.

(** X6.  Construction returns neither a feed nor an error exactly when
    the interval string is not empty and parses, without error, to less
    than one second (zero and negative durations included). *)
Theorem NewStorkPriceFeed_no_result (cfg : StorkFeedConfig) :
  NewStorkPriceFeed cfg = (None, None) <->
  PullInterval cfg <> "" /\
  exists d, time_ParseDuration (PullInterval cfg) = (d, None) /\ d < time_Second.
Proof.
  split.
  - intros H.
    destruct (NewStorkPriceFeed_cases cfg)
      as [(d & t & _ & _ & Heq) | [(d & _ & _ & _ & Heq)
          | [(d & e & _ & _ & Heq) | (d & Hne & Hparse & Hshort & _)]]];
      try (rewrite Heq in H; discriminate H).
    split; [ exact Hne | ]. exists d. auto.
  - intros (Hne & d & Hparse & Hshort).
    now apply (NewStorkPriceFeed_interval_short cfg d).
Qed.

(** X7.  Whenever construction returns an error it returns no feed, and
    the error is one of two: the error of [time.ParseDuration] wrapped
    with a message that quotes the interval string, or, for an accepted
    interval, the complaint that the non-empty oracle-type name is not
    in the table. *)
Theorem NewStorkPriceFeed_errors
    (cfg : StorkFeedConfig) (result : option storkPriceFeed) (err : error) :
  NewStorkPriceFeed cfg = (result, Some err) ->
  result = None /\
  ((exists d e,
      PullInterval cfg <> "" /\
      time_ParseDuration (PullInterval cfg) = (d, Some e) /\
      err = withMessage e ("failed to parse pull interval: " +:+ PullInterval cfg
                             +:+ " (expected format: 60s)")) \/
   (exists d,
      interval_accepted cfg d /\ OracleType cfg <> "" /\
      OracleType_value !! OracleType cfg = None /\
      err = errorString ("oracle type does not exist: " +:+ OracleType cfg))).
Proof.
  intros H.
  destruct (NewStorkPriceFeed_cases cfg)
    as [(d & t & _ & _ & Heq) | [(d & Hd & Hne & Hv & Heq)
        | [(d & e & Hne & Hparse & Heq) | (d & _ & _ & _ & Heq)]]];
    rewrite Heq in H; try discriminate H; injection H as <- <-.
  - split; [ reflexivity | ]. right. exists d. auto.
  - split; [ reflexivity | ]. left. exists d, e. auto.
Qed.

Lemma NewStorkPriceFeed_errors_witness :
  @None storkPriceFeed = None /\
  ((exists d e,
      PullInterval (cfg_with "soon" "") <> "" /\
      time_ParseDuration (PullInterval (cfg_with "soon" "")) = (d, Some e) /\
      withMessage err_invalid_duration
        ("failed to parse pull interval: " +:+ PullInterval (cfg_with "soon" "")
           +:+ " (expected format: 60s)")
      = withMessage e ("failed to parse pull interval: " +:+ PullInterval (cfg_with "soon" "")
                         +:+ " (expected format: 60s)")) \/
   (exists d,
      interval_accepted (cfg_with "soon" "") d /\ OracleType (cfg_with "soon" "") <> "" /\
      OracleType_value !! OracleType (cfg_with "soon" "") = None /\
      withMessage err_invalid_duration
        ("failed to parse pull interval: " +:+ PullInterval (cfg_with "soon" "")
           +:+ " (expected format: 60s)")
      = errorString ("oracle type does not exist: " +:+ OracleType (cfg_with "soon" "")))).
Proof.
  apply (NewStorkPriceFeed_errors (cfg_with "soon" "") None
           (withMessage err_invalid_duration
              ("failed to parse pull interval: " +:+ PullInterval (cfg_with "soon" "")
                 +:+ " (expected format: 60s)"))).
  vm_compute. reflexivity.
Defined.

(** ** More on the pull *)

Lemma network_app (a b : list Event) : network (a ++ b) = (network a ++ network b)%list.
Proof. apply List.filter_app. Qed.

Lemma network_handshake_log (resp : option Response) : network (handshake_log resp) = [].
Proof.
  destruct resp as [resp|]; [ | reflexivity ].
  unfold network, handshake_log. cbn.
  induction (resp_Header resp) as [|kv hs IH]; [ reflexivity | exact IH ].
Qed.

Ltac wire_cut n :=
  exists n; split; [ reflexivity | ]; split; [ lia | ];
  first
    [ left; split; [ intros H; exact H | ];
      first [ reflexivity
            | rewrite !network_app, network_handshake_log; reflexivity ]
    | right; split; [ exact I | ]; split; [ lia | reflexivity ] ].

(** X8.  The wire protocol.  Whatever the endpoint does, the events of
    a pull on the connection are a run of the script dial, one text
    frame with the configured message, read, read, cut where the
    session stopped, and followed by exactly one close if and only if
    the call comes back to its caller (then at least one read was
    made).  So a pull never dials twice, never writes a second frame,
    never reads a third, never closes twice, and leaves the connection
    unclosed when it ends the process or stays blocked. *)
Theorem PullAssetPair_wire_protocol (w : Env) (f : storkPriceFeed) (ctx : Context) :
  (exists err, url_Parse w (url f) = inr err /\
               network (snd (run_PullAssetPair w f ctx)) = []) \/
  (exists u n,
     url_Parse w (url f) = inl u /\ (1 <= n <= 4)%nat /\
     ((~ came_back (fst (run_PullAssetPair w f ctx)) /\
       network (snd (run_PullAssetPair w f ctx)) = take n (session_script f u)) \/
      (came_back (fst (run_PullAssetPair w f ctx)) /\ (3 <= n)%nat /\
       network (snd (run_PullAssetPair w f ctx))
       = (take n (session_script f u) ++ [EvClose])%list))).
Proof.
  pull_cases w f ctx; cbn [fst snd came_back];
    try (left; eexists; split; [ reflexivity | reflexivity ]);
    right; exists u;
    first [ wire_cut 1%nat | wire_cut 2%nat | wire_cut 3%nat | wire_cut 4%nat ].
Qed.

(** X9.  The first frame is thrown away.  Two sessions that differ
    only in the text of their first frame give the same outcome and the
    same events: nothing of the first frame is decoded, logged or
    returned. *)
Theorem PullAssetPair_first_frame_discarded
    (w : Env) (f : storkPriceFeed) (ctx : Context) (first first' : string) :
  run_PullAssetPair (with_first_frame w first) f ctx
  = run_PullAssetPair (with_first_frame w first') f ctx.
Proof.
  pull_unfold. cbn [with_first_frame url_Parse Dial WriteMessage ReadMessage
                    json_Unmarshal range_keys].
  destruct (url_Parse w (url f)) as [u|e]; [ | reflexivity ].
  destruct (Dial w (URL_String u) (request_header f)) as [resp|resp e]; [ | reflexivity ].
  destruct (WriteMessage w (message f)) as [e|]; [ reflexivity | ].
  destruct (ReadMessage w 1) as [msgNeed|e|]; reflexivity.
Qed.

(** X10.  What of the feed a pull uses.  Two feeds with the same
    endpoint, credential, subscription message and metric tags give the
    same outcome and the same events in every environment and context:
    the ticker, the provider name, the interval, the logger and the
    oracle type of the feed play no part in a pull. *)
Theorem PullAssetPair_feed_fields
    (w : Env) (f f' : storkPriceFeed) (ctx ctx' : Context) :
  url f = url f' -> header f = header f' -> message f = message f' ->
  svcTags f = svcTags f' ->
  run_PullAssetPair w f ctx = run_PullAssetPair w f' ctx'.
Proof.
  intros Hu Hh Hm Ht.
  unfold run_PullAssetPair, PullAssetPair, request_header.
  now rewrite Hu, Hh, Hm, Ht.
Qed.

Lemma PullAssetPair_feed_fields_witness :
  run_PullAssetPair (session [Frame "ack"; Frame frame_two_assets] range_forward)
    feed_btc context_Background
  = run_PullAssetPair (session [Frame "ack"; Frame frame_two_assets] range_forward)
      (mkStorkPriceFeed "ETHUSD" "other" (5 * time_Second) (url feed_btc) (header feed_btc)
         (message feed_btc) [] (svcTags feed_btc) OracleType_Pyth)
      (mkContext (Some 1%nat)).
Proof.
  apply (PullAssetPair_feed_fields
           (session [Frame "ack"; Frame frame_two_assets] range_forward) feed_btc
           (mkStorkPriceFeed "ETHUSD" "other" (5 * time_Second) (url feed_btc) (header feed_btc)
              (message feed_btc) [] (svcTags feed_btc) OracleType_Pyth)
           context_Background (mkContext (Some 1%nat))); reflexivity.
Defined.

(** X11.  The process exits only for three causes.  If a pull ends the
    process, the exit status is 1 and the pull failed at the endpoint,
    at the dial or at the write; no frame was read. *)
Theorem PullAssetPair_exit_causes
    (w : Env) (f : storkPriceFeed) (ctx : Context) (code : Z) :
  fst (run_PullAssetPair w f ctx) = Exited code ->
  code = 1 /\
  (pull_fails w f MalformedEndpoint \/ pull_fails w f DialFailure \/
   pull_fails w f WriteFailure) /\
  ~ In EvReadMessage (snd (run_PullAssetPair w f ctx)).
Proof.
  intros H. pull_cases w f ctx; cbn [fst snd] in H |- *; try discriminate H;
    injection H as <-; (split; [ reflexivity | ]).
  - split.
    + right; right. apply (fails_write _ _ e); [ exists u, resp; auto | exact Hwrite ].
    + cbn. intros Hin. repeat destruct Hin as [Hin|Hin]; try discriminate Hin. exact Hin.
  - split.
    + right; left. apply (fails_dial _ _ u resp e); assumption.
    + rewrite !in_app_iff. cbn. intros [Hin | [Hin | [Hin | Hin]]].
      * repeat destruct Hin as [Hin|Hin]; try discriminate Hin. exact Hin.
      * repeat destruct Hin as [Hin|Hin]; try discriminate Hin. exact Hin.
      * destruct resp as [resp|]; [ | exact Hin ].
        cbn in Hin. destruct Hin as [Hin|Hin]; [ discriminate Hin | ].
        apply in_map_iff in Hin as (kv & Hkv & _). discriminate Hkv.
      * repeat destruct Hin as [Hin|Hin]; try discriminate Hin. exact Hin.
  - split.
    + left. apply (fails_endpoint _ _ e). exact Hparse.
    + cbn. intros Hin. repeat destruct Hin as [Hin|Hin]; try discriminate Hin. exact Hin.
Qed.

Lemma PullAssetPair_exit_causes_witness :
  1 = 1 /\
  (pull_fails session_write_fails feed_btc MalformedEndpoint \/
   pull_fails session_write_fails feed_btc DialFailure \/
   pull_fails session_write_fails feed_btc WriteFailure) /\
  ~ In EvReadMessage (snd (run_PullAssetPair session_write_fails feed_btc context_Background)).
Proof.
  apply (PullAssetPair_exit_causes session_write_fails feed_btc context_Background 1).
  reflexivity.
Defined.

(** X12.  The pull panics only for one cause.  With a range that visits
    every key of the mapping, a pull panics only when the second frame
    decoded to an envelope without assets; the panic is the index out of
    range, raised after both frames were read, and the connection was
    closed on the way out. *)
Theorem PullAssetPair_panic_cause
    (w : Env) (f : storkPriceFeed) (ctx : Context) (msg : string) :
  range_valid w ->
  fst (run_PullAssetPair w f ctx) = Panicked msg ->
  msg = "index out of range [0] with length 0" /\
  (exists msgResp, decodes w f msgResp /\ Data_ msgResp = ∅) /\
  closes (snd (run_PullAssetPair w f ctx)) = 1%nat.
Proof.
  intros Hvalid H.
  pose proof (proj1 (PullAssetPair_closes w f ctx)) as Hclose.
  pull_cases w f ctx; cbn [fst snd] in H |- *; try discriminate H.
  injection H as <-. split; [ reflexivity | ].
  split; [ | apply Hclose; exact I ].
  exists msgResp. split.
  - exists msgNeed. split; [ | exact Hdecode ].
    split; [ split; [ exists u, resp; auto | exact Hwrite ] | ].
    exists first. auto.
  - apply map_to_list_empty_iff.
    specialize (Hvalid (Data_ msgResp)). rewrite Hkeys in Hvalid.
    apply Permutation_nil_l in Hvalid. symmetry in Hvalid.
    now apply fmap_nil_inv in Hvalid.
Qed.

Lemma PullAssetPair_panic_cause_witness :
  "index out of range [0] with length 0" = "index out of range [0] with length 0" /\
  (exists msgResp,
     decodes (session [Frame "ack"; Frame "{}"] range_backward) feed_btc msgResp /\
     Data_ msgResp = ∅) /\
  closes (snd (run_PullAssetPair (session [Frame "ack"; Frame "{}"] range_backward)
                 feed_btc context_Background)) = 1%nat.
Proof.
  apply (PullAssetPair_panic_cause (session [Frame "ack"; Frame "{}"] range_backward)
           feed_btc context_Background "index out of range [0] with length 0").
  - apply range_backward_valid.
  - reflexivity.
Defined.

(** X13.  What a return means.  With a range that visits every key of
    the mapping, whatever a pull returns comes with a nil error and is
    one of two things: the zero-value asset pair, after a read failure
    or a decode failure; or, for an asset [k] that the decoded envelope
    does hold with record [d], the pair with identifier [k] and one
    converted entry per signed price of [d], in order.  The record of a
    missing key is never converted. *)
Theorem PullAssetPair_return_meaning
    (w : Env) (f : storkPriceFeed) (ctx : Context)
    (assetPairs : AssetPair) (err : option error) :
  range_valid w ->
  fst (run_PullAssetPair w f ctx) = Returned (assetPairs, err) ->
  err = None /\
  ((assetPairs = AssetPair_zero /\
    (pull_fails w f ReadFailure \/ pull_fails w f DecodeFailure)) \/
   (exists msgResp k d,
      decodes w f msgResp /\ Data_ msgResp !! k = Some d /\
      assetPairs = mkAssetPair k (map ConvertSignedPrice (SignedPrices d)))).
Proof.
  intros Hvalid H.
  pull_cases w f ctx; cbn [fst snd] in H |- *; try discriminate H;
    injection H as <- <-; (split; [ reflexivity | ]).
  - right.
    destruct (range_keys_head w (Data_ msgResp) k ks Hvalid Hkeys) as [d Hd].
    exists msgResp, k, d. split; [ | split; [ exact Hd | ] ].
    + exists msgNeed. split; [ | exact Hdecode ].
      split; [ split; [ exists u, resp; auto | exact Hwrite ] | ].
      exists first. auto.
    + rewrite Hd. cbn [default]. apply ConvertDataToAssetPair_map.
  - left. split; [ reflexivity | ]. right.
    apply (fails_decode _ _ msgNeed e); [ | exact Hdecode ].
    split; [ split; [ exists u, resp; auto | exact Hwrite ] | ].
    exists first. auto.
  - left. split; [ reflexivity | ]. left.
    apply (fails_second_read _ _ first e); [ | exact Hfirst | exact Hsecond ].
    split; [ exists u, resp; auto | exact Hwrite ].
  - left. split; [ reflexivity | ]. left.
    apply (fails_first_read _ _ e); [ | exact Hfirst ].
    split; [ exists u, resp; auto | exact Hwrite ].
Qed.

Lemma PullAssetPair_return_meaning_witness :
  @None error = None /\
  ((ConvertDataToAssetPair data_btc "BTCUSD" = AssetPair_zero /\
    (pull_fails (session [Frame "ack"; Frame frame_two_assets] range_backward)
       feed_btc ReadFailure \/
     pull_fails (session [Frame "ack"; Frame frame_two_assets] range_backward)
       feed_btc DecodeFailure)) \/
   (exists msgResp k d,
      decodes (session [Frame "ack"; Frame frame_two_assets] range_backward)
        feed_btc msgResp /\
      Data_ msgResp !! k = Some d /\
      ConvertDataToAssetPair data_btc "BTCUSD"
      = mkAssetPair k (map ConvertSignedPrice (SignedPrices d)))).
Proof.
  apply (PullAssetPair_return_meaning
           (session [Frame "ack"; Frame frame_two_assets] range_backward)
           feed_btc context_Background (ConvertDataToAssetPair data_btc "BTCUSD") None).
  - apply range_backward_valid.
  - vm_compute. reflexivity.
Defined.

(** X14.  The successful pull.  With a range that visits every key of
    the mapping, for every session whose second frame decodes to an
    envelope with at least one asset, the pull returns, with a nil
    error, the pair of one of the envelope's assets: its key for
    identifier and one converted entry per signed price of its record,
    in order; the connection is closed once. *)
Theorem PullAssetPair_succeeds
    (w : Env) (f : storkPriceFeed) (ctx : Context) (msgResp : messageResponse) :
  range_valid w ->
  decodes w f msgResp ->
  Data_ msgResp <> ∅ ->
  (exists k d,
     Data_ msgResp !! k = Some d /\
     fst (run_PullAssetPair w f ctx)
     = Returned (mkAssetPair k (map ConvertSignedPrice (SignedPrices d)), None)) /\
  closes (snd (run_PullAssetPair w f ctx)) = 1%nat.
Proof.
  intros Hvalid Hdec Hne.
  destruct (range_keys w (Data_ msgResp)) as [|k ks] eqn:Hkeys.
  - exfalso. apply Hne. apply map_to_list_empty_iff.
    specialize (Hvalid (Data_ msgResp)). rewrite Hkeys in Hvalid.
    apply Permutation_nil_l in Hvalid. symmetry in Hvalid.
    now apply fmap_nil_inv in Hvalid.
  - destruct (range_keys_head w (Data_ msgResp) k ks Hvalid Hkeys) as [d Hd].
    pose proof (PullAssetPair_first_key w f ctx msgResp k ks Hdec Hkeys) as Hrun.
    rewrite Hd in Hrun. cbn [default] in Hrun.
    rewrite ConvertDataToAssetPair_map in Hrun.
    split; [ exists k, d; auto | ].
    apply (proj1 (PullAssetPair_closes w f ctx)). now rewrite Hrun.
Qed.

Lemma PullAssetPair_succeeds_witness :
  (exists k d,
     Data_ envelope_two !! k = Some d /\
     fst (run_PullAssetPair (session [Frame "ack"; Frame frame_two_assets] range_forward)
            feed_btc context_Background)
     = Returned (mkAssetPair k (map ConvertSignedPrice (SignedPrices d)), None)) /\
  closes (snd (run_PullAssetPair (session [Frame "ack"; Frame frame_two_assets] range_forward)
                 feed_btc context_Background)) = 1%nat.
Proof.
  apply (PullAssetPair_succeeds
           (session [Frame "ack"; Frame frame_two_assets] range_forward)
           feed_btc context_Background envelope_two).
  - apply range_forward_valid.
  - exists frame_two_assets. split; [ | reflexivity ].
    split; [ split; [ eexists _, _; split; reflexivity | reflexivity ] | ].
    exists "ack". split; reflexivity.
  - intros H. apply (f_equal (fun m => m !! "BTCUSD")) in H. vm_compute in H. discriminate H.
Defined.

(** X15.  Metrics.  Every pull reports the function call and starts the
    timer before anything else; the deferred stop of the timer is the
    last event of every pull that comes back, and never happens in a
    pull that ends the process or stays blocked. *)
Theorem PullAssetPair_metrics (w : Env) (f : storkPriceFeed) (ctx : Context) :
  take 2 (snd (run_PullAssetPair w f ctx)) = trace_start f /\
  (came_back (fst (run_PullAssetPair w f ctx)) ->
   last (snd (run_PullAssetPair w f ctx)) = Some EvTimingDone) /\
  (~ came_back (fst (run_PullAssetPair w f ctx)) ->
   ~ In EvTimingDone (snd (run_PullAssetPair w f ctx))).
Proof.
  pull_cases w f ctx; cbn [fst snd came_back];
    (split; [ reflexivity | ]); split; intros H;
    try (exfalso; exact H); try (exfalso; apply H; exact I); try reflexivity.
  - cbn. intros Hin. repeat destruct Hin as [Hin|Hin]; try discriminate Hin. exact Hin.
  - cbn. intros Hin. repeat destruct Hin as [Hin|Hin]; try discriminate Hin. exact Hin.
  - cbn. intros Hin. repeat destruct Hin as [Hin|Hin]; try discriminate Hin. exact Hin.
  - rewrite !in_app_iff. cbn. intros [Hin | [Hin | [Hin | Hin]]].
    + repeat destruct Hin as [Hin|Hin]; try discriminate Hin. exact Hin.
    + repeat destruct Hin as [Hin|Hin]; try discriminate Hin. exact Hin.
    + destruct resp as [resp|]; [ | exact Hin ].
      cbn in Hin. destruct Hin as [Hin|Hin]; [ discriminate Hin | ].
      apply in_map_iff in Hin as (kv & Hkv & _). discriminate Hkv.
    + repeat destruct Hin as [Hin|Hin]; try discriminate Hin. exact Hin.
  - cbn. intros Hin. repeat destruct Hin as [Hin|Hin]; try discriminate Hin. exact Hin.
Qed.
